(** * Tic-tac-toe game engine (src/tic_tac_toe_frontend/src/app/page.tsx)

    A shallow embedding of the game logic of the [TicTacToe] component:
    the pure helpers [getWinner], [getAvailableMoves], [isBoardFull], the
    event handlers [makeMove], [restartGame], [resetAll], the AI toggle
    button, and the effect that schedules the computer's move with a timer.

    Modelling decisions.
    - A JavaScript array is a [length] together with a finite map from
      integer property keys to values.  Keys [0 <= k < 2^32 - 1] are array
      indices; writing one at or past [length] grows the array, writing any
      other integer key stores an ordinary property and leaves [length]
      alone.  Reading an absent key yields [undefined], here [None].
    - A [Cell] is [Player | null]; [null] is [None], so a lookup in a board
      has type [option (option Player)]: [None] is a hole / [undefined],
      [Some None] is [null], [Some (Some p)] is a mark.
    - The six [useState] variables form the record [State].  A handler is a
      closure over the values of the render that created it and writes
      through the setters into the live state; [makeMove] therefore takes
      the render it closes over and the live state separately.  All setter
      calls of one handler run are applied together.
    - [score] counts wins with [N]; the rounding of JavaScript numbers
      above [2^53] is not modelled.
    - [Math.random] is an oracle: the event that triggers the effect carries
      the position that [Math.floor(Math.random() * open.length)] selects. *)

From stdpp Require Import gmap list fin_maps strings pretty sorting.

Open Scope Z_scope.

(** ** Players and cells *)

Inductive Player := X | O.

#[global] Instance Player_eq_dec : EqDecision Player.
Proof. solve_decision. Defined.

Abbreviation Cell := (option Player).

(** [p === "X" ? "O" : "X"] *)
Definition other (p : Player) : Player :=
  match p with X => O | O => X end.

(** ** JavaScript arrays of cells *)

Record JSArray := mkArr { arr_length : Z; arr_props : gmap Z Cell }.

#[global] Instance JSArray_eq_dec : EqDecision JSArray.
Proof. solve_decision. Defined.

(** [board[k]] *)
Definition arr_get (b : JSArray) (k : Z) : option Cell := arr_props b !! k.

(** Property keys that are array indices. *)
Definition is_index (k : Z) : bool := (0 <=? k) && (k <? 2 ^ 32 - 1).

(** [b[k] = v] *)
Definition arr_set (b : JSArray) (k : Z) (v : Cell) : JSArray :=
  mkArr (if is_index k && (arr_length b <=? k) then k + 1 else arr_length b)
        (<[k := v]> (arr_props b)).

(** [b.slice()]: a fresh array holding the elements [0 .. length-1]; holes
    stay holes and properties that are not elements are not copied. *)
Definition slice (b : JSArray) : JSArray :=
  mkArr (arr_length b)
        (filter (fun kv => 0 <= kv.1 < arr_length b) (arr_props b)).

(** The indices [0 .. length-1], in the order the array methods visit them. *)
Definition indices (b : JSArray) : list Z := seqZ 0 (arr_length b).

(** [Array(9).fill(null)] *)
Definition EMPTY_BOARD : JSArray :=
  mkArr 9 (list_to_map ((fun k => (k, @None Player)) <$> seqZ 0 9)).

(** JavaScript truthiness of a value read from a board: only the strings
    ["X"] and ["O"] are truthy, [null] and [undefined] are not. *)
Definition truthy (v : option Cell) : bool :=
  match v with Some (Some _) => true | _ => false end.

(** ** The pure helpers *)

Definition lines : list (Z * Z * Z) :=
  [ (0, 1, 2); (3, 4, 5); (6, 7, 8);
    (0, 3, 6); (1, 4, 7); (2, 5, 8);
    (0, 4, 8); (2, 4, 6) ].

(** The test of one line inside the loop of [getWinner]:
    [board[a] && board[a] === board[b] && board[a] === board[c]],
    giving [board[a]] when it succeeds. *)
Definition lineWinner (board : JSArray) (l : Z * Z * Z) : option Player :=
  let '(a, b, c) := l in
  match arr_get board a with
  | Some (Some p) =>
      if bool_decide (arr_get board a = arr_get board b)
         && bool_decide (arr_get board a = arr_get board c)
      then Some p else None
  | _ => None
  end.

Fixpoint firstWinner (board : JSArray) (ls : list (Z * Z * Z)) : option Player :=
  match ls with
  | [] => None
  | l :: ls' =>
      match lineWinner board l with
      | Some p => Some p
      | None => firstWinner board ls'
      end
  end.

Definition getWinner (board : JSArray) : option Player :=
  firstWinner board lines.

(** [board.map((cell, idx) => cell === null ? idx : null).filter(x => x !== null)]:
    holes are skipped by both [map] and [filter]. *)
Definition getAvailableMoves (board : JSArray) : list Z :=
  filter (fun k => arr_get board k = Some None) (indices board).

(** [board.every(cell => cell !== null)]: holes are skipped. *)
Definition isBoardFull (board : JSArray) : bool :=
  forallb (fun k => negb (bool_decide (arr_get board k = Some None)))
          (indices board).

(** [board.some(v => v)] *)
Definition someMark (board : JSArray) : bool :=
  existsb (fun k => truthy (arr_get board k)) (indices board).

(** Exchanging the two marks, cell by cell. *)
Definition swapCell (c : Cell) : Cell := other <$> c.

Definition swapBoard (b : JSArray) : JSArray :=
  mkArr (arr_length b) (swapCell <$> arr_props b).

(** A board of exactly nine cells, none of them a hole. *)
Definition is_board9 (b : JSArray) : Prop :=
  arr_length b = 9 /\ forall k, 0 <= k < 9 -> is_Some (arr_get b k).

(** ** Component state *)

(** [winner : Player | "Draw" | null] *)
Inductive Outcome := NoResult | Won (p : Player) | Draw.

#[global] Instance Outcome_eq_dec : EqDecision Outcome.
Proof. solve_decision. Defined.

(** Truthiness of [winner]: [null] is falsy, the three strings are truthy. *)
Definition decided (w : Outcome) : bool :=
  match w with NoResult => false | _ => true end.

(** [score : { X: number; O: number }] *)
Record Score := mkScore { score_X : N; score_O : N }.

#[global] Instance Score_eq_dec : EqDecision Score.
Proof. solve_decision. Defined.

Definition score_of (sc : Score) (p : Player) : N :=
  match p with X => score_X sc | O => score_O sc end.

(** [{ ...prev, [p]: prev[p] + 1 }] *)
Definition bump (p : Player) (prev : Score) : Score :=
  match p with
  | X => mkScore (score_X prev + 1) (score_O prev)
  | O => mkScore (score_X prev) (score_O prev + 1)
  end.

Record State := mkState {
  board : JSArray;
  current : Player;
  aiMode : bool;
  winner : Outcome;
  score : Score;
  startingPlayer : Player
}.

#[global] Instance State_eq_dec : EqDecision State.
Proof. solve_decision. Defined.

(** The state setters returned by [useState]. *)
Definition setBoard (b : JSArray) (s : State) : State :=
  mkState b (current s) (aiMode s) (winner s) (score s) (startingPlayer s).
Definition setCurrent (p : Player) (s : State) : State :=
  mkState (board s) p (aiMode s) (winner s) (score s) (startingPlayer s).
Definition setAIMode (f : bool -> bool) (s : State) : State :=
  mkState (board s) (current s) (f (aiMode s)) (winner s) (score s) (startingPlayer s).
Definition setWinner (w : Outcome) (s : State) : State :=
  mkState (board s) (current s) (aiMode s) w (score s) (startingPlayer s).
Definition setScore (f : Score -> Score) (s : State) : State :=
  mkState (board s) (current s) (aiMode s) (winner s) (f (score s)) (startingPlayer s).
Definition setStartingPlayer (p : Player) (s : State) : State :=
  mkState (board s) (current s) (aiMode s) (winner s) (score s) p.

(** The initial values handed to the six [useState] calls. *)
Definition initialState : State :=
  mkState EMPTY_BOARD X false NoResult (mkScore 0 0) X.

(** ** Event handlers *)

(** [makeMove(idx)] of render [r], run against the live state.  [None] is
    the early [return]: no setter is called.  The board, the winner and the
    current player are read from the closure; only [setScore] is given an
    updater function and so reads the live score. *)
Definition makeMove (r : State) (idx : Z) (live : State) : option State :=
  if truthy (arr_get (board r) idx) || decided (winner r) then None
  else
    let newBoard := arr_set (slice (board r)) idx (Some (current r)) in
    match getWinner newBoard with
    | Some possibleWinner =>
        Some (setScore (bump possibleWinner)
               (setWinner (Won possibleWinner) (setBoard newBoard live)))
    | None =>
        if isBoardFull newBoard
        then Some (setWinner Draw (setBoard newBoard live))
        else Some (setCurrent (other (current r)) (setBoard newBoard live))
    end.

(** A click on cell [idx]: the handler of the current render. *)
Definition placeMark (s : State) (idx : Z) : State :=
  default s (makeMove s idx s).

Definition restartGame (s : State) : State :=
  let nextStarting := other (startingPlayer s) in
  setCurrent nextStarting
    (setStartingPlayer nextStarting
      (setWinner NoResult (setBoard EMPTY_BOARD s))).

Definition resetAll (s : State) : State :=
  setCurrent X
    (setStartingPlayer X
      (setAIMode (fun _ => false)
        (setScore (fun _ => mkScore 0 0)
          (setWinner NoResult (setBoard EMPTY_BOARD s))))).

(** The [disabled] attribute of the AI button:
    [score.X > 0 || score.O > 0 || board.some((v) => v)]. *)
Definition aiToggleDisabled (s : State) : bool :=
  (0 <? score_X (score s))%N || (0 <? score_O (score s))%N
  || someMark (board s).

(** A click on the AI button; a disabled button does not run its handler
    [() => setAIMode((prev) => !prev)]. *)
Definition aiToggleClick (s : State) : State :=
  if aiToggleDisabled s then s else setAIMode negb s.

(** ** The effect and its timer *)

(** A pending [setTimeout(() => makeMove(move), 500)]: the render whose
    [makeMove] the callback closes over, and the chosen cell. *)
Definition Timer : Type := State * Z.

(** [aiMove()] of render [r]; [pick] stands for the value of
    [Math.random()], through the position it selects in [open]. *)
Definition aiMove (r : State) (pick : nat) : option Timer :=
  if negb (aiMode r) || decided (winner r)
     || negb (bool_decide (current r = O))
  then None
  else
    let open := getAvailableMoves (board r) in
    if (0 <? length open)%nat
    then (fun move => (r, move)) <$> open !! (pick mod length open)%nat
    else None.

(** The component between two events: the live state and the timers that
    have not fired yet, oldest first (all have the same delay). *)
Record Config := mkConfig { live : State; timers : list Timer }.

Inductive Event :=
  | Click (idx : Z)
  | Restart
  | ResetAll
  | ToggleAI
  | Fire.

(** A render after a state update: each update of these handlers changes
    one of the dependencies [current, board, aiMode, winner], so the effect
    runs [aiMove] of the new render. *)
Definition render (s : State) (pick : nat) (pending : list Timer) : Config :=
  mkConfig s (pending ++ option_list (aiMove s pick)).

Definition exec (c : Config) (e : Event) (pick : nat) : Config :=
  match e with
  | Click idx =>
      match makeMove (live c) idx (live c) with
      | Some s' => render s' pick (timers c)
      | None => c
      end
  | Restart => render (restartGame (live c)) pick (timers c)
  | ResetAll => render (resetAll (live c)) pick (timers c)
  | ToggleAI =>
      if aiToggleDisabled (live c) then c
      else render (aiToggleClick (live c)) pick (timers c)
  | Fire =>
      match timers c with
      | [] => c
      | (r, move) :: pending =>
          match makeMove r move (live c) with
          | Some s' => render s' pick pending
          | None => mkConfig (live c) pending
          end
      end
  end.

(** The component after mounting: the first effect run finds [aiMode]
    false and schedules nothing. *)
Definition initialConfig : Config := mkConfig initialState [].

Definition run (c : Config) (trace : list (Event * nat)) : Config :=
  foldl (fun c ep => exec c ep.1 ep.2) c trace.

(** States reachable by events that satisfy [allowed] where they occur. *)
Inductive reachable_by (allowed : Config -> Event -> Prop) : Config -> Prop :=
  | reach_init : reachable_by allowed initialConfig
  | reach_exec c e pick :
      reachable_by allowed c -> allowed c e ->
      reachable_by allowed (exec c e pick).

Definition reachable : Config -> Prop := reachable_by (fun _ _ => True).

(** Events whose clicks name one of the nine cells. *)
Definition in_range (c : Config) (e : Event) : Prop :=
  match e with Click idx => 0 <= idx <= 8 | _ => True end.

(** The oldest pending timer was scheduled by the render that is still the
    live state: nothing has happened since. *)
Definition fresh_timer (c : Config) : Prop :=
  match timers c with
  | (r, _) :: _ => r = live c
  | [] => True
  end.

(** Events under which every timer fires before anything else happens. *)
Definition timely (c : Config) (e : Event) : Prop :=
  match e with Fire => fresh_timer c | _ => True end.

(** Events that continue the round: everything but restart and reset, a
    timer only when it is fresh. *)
Definition continues (c : Config) (e : Event) : Prop :=
  match e with
  | Click _ | ToggleAI => True
  | Fire => fresh_timer c
  | Restart | ResetAll => False
  end.

(** ** Vocabulary of the statements *)

(** The three cells of line [l] hold the mark [m]. *)
Definition holds3 (b : JSArray) (l : Z * Z * Z) (m : Player) : Prop :=
  let '(x, y, z) := l in
  arr_get b x = Some (Some m) /\ arr_get b y = Some (Some m)
  /\ arr_get b z = Some (Some m).

(** Some line of the board holds three equal marks. *)
Definition has_line (b : JSArray) : Prop :=
  exists l m, l ∈ lines /\ holds3 b l m.

(** All nine cells hold a mark. *)
Definition all_marked (b : JSArray) : Prop :=
  forall k, 0 <= k < 9 -> truthy (arr_get b k) = true.

(** All nine cells are empty. *)
Definition all_empty (b : JSArray) : Prop :=
  forall k, 0 <= k < 9 -> arr_get b k = Some None.

(** Shape of every board the component can hold: the nine cells are
    present, and nothing outside them is [null]. *)
Definition wf_board (b : JSArray) : Prop :=
  9 <= arr_length b
  /\ (forall k, 0 <= k < 9 -> is_Some (arr_get b k))
  /\ (forall k, ~ 0 <= k < 9 -> arr_get b k <> Some None).

Definition wf_state (s : State) : Prop :=
  wf_board (board s)
  /\ (winner s = NoResult -> getWinner (board s) = None).

Definition wf_config (c : Config) : Prop :=
  wf_state (live c) /\ Forall (fun t : Timer => wf_state t.1) (timers c).

(** Some element of the board holds a mark. *)
Definition occupied (b : JSArray) : Prop :=
  exists k, 0 <= k < arr_length b /\ truthy (arr_get b k) = true.

(** Every mark of [s] is still in place in [s']. *)
Definition keeps_marks (s s' : State) : Prop :=
  forall k, 0 <= k < arr_length (board s) ->
    truthy (arr_get (board s) k) = true ->
    arr_get (board s') k = arr_get (board s) k.

(** Every pending timer names an element of the board it was chosen from. *)
Definition timers_in_range (c : Config) : Prop :=
  Forall (fun t : Timer => 0 <= t.2 < arr_length (board t.1)) (timers c).

(** The live board and the boards of all pending timers have nine cells. *)
Definition nine_cells (c : Config) : Prop :=
  arr_length (board (live c)) = 9
  /\ Forall (fun t : Timer => arr_length (board t.1) = 9) (timers c).

(** The stored result agrees with the stored board, and a recorded winner
    is the mark whose turn it was when the line was completed. *)
Definition consistent (s : State) : Prop :=
  match winner s with
  | NoResult => getWinner (board s) = None
  | Won m => getWinner (board s) = Some m /\ current s = m
  | Draw => all_marked (board s) /\ getWinner (board s) = None
  end.

(** ** Presentation values computed from the state *)

(** A mark interpolated into a template string. *)
Definition playerName (p : Player) : string :=
  match p with X => "X" | O => "O" end.

(** [turnMsg]: the status line under the board. *)
Definition turnMsg (s : State) : string :=
  match winner s with
  | Draw => "It's a Draw!"
  | Won p => "Winner: " +:+ playerName p
  | NoResult =>
      "Turn: " +:+ playerName (current s)
      +:+ (if aiMode s && bool_decide (current s = O) then " (AI)" else "")
  end.

(** The [disabled] attribute of the button of cell [i]:
    [!!cell || !!winner]. *)
Definition cellDisabled (s : State) (i : Z) : bool :=
  truthy (arr_get (board s) i) || decided (winner s).

(** The [aria-label] of the button of cell [i]:
    [`Cell ${i%3+1},${Math.floor(i/3)+1}`]. *)
Definition cellLabel (i : Z) : string :=
  "Cell " +:+ pretty (Z.rem i 3 + 1) +:+ "," +:+ pretty (i `div` 3 + 1).

(** ** Further vocabulary *)

(** Number of cells among the nine that hold the mark [p]. *)
Definition count_marks (b : JSArray) (p : Player) : nat :=
  length (filter (fun k => arr_get b k = Some (Some p)) (seqZ 0 9)).

(** Marks alternate from the starting player: while the round is open the
    player to move has as many marks as the opponent when it opens, one
    fewer otherwise; once the round has a result the turn is still with the
    player who placed last. *)
Definition turn_balance (s : State) : Prop :=
  let first := count_marks (board s) (startingPlayer s) in
  let second := count_marks (board s) (other (startingPlayer s)) in
  match winner s with
  | NoResult =>
      if decide (current s = startingPlayer s)
      then first = second else first = S second
  | _ =>
      if decide (current s = startingPlayer s)
      then first = S second else first = second
  end.

(** Events of a game played through the nine buttons with every computer
    move firing in time. *)
Definition orderly (c : Config) (e : Event) : Prop :=
  timely c e /\ in_range c e.

(** What [aiMove] has checked about a timer it scheduled. *)
Definition timer_checked (t : Timer) : Prop :=
  aiMode t.1 = true /\ winner t.1 = NoResult /\ current t.1 = O
  /\ arr_get (board t.1) t.2 = Some None.

(** A round without a result still has an empty cell. *)
Definition open_round (s : State) : Prop :=
  winner s = NoResult -> isBoardFull (board s) = false.

(** All complete lines of the board carry the same mark. *)
Definition single_mark_lines (b : JSArray) : Prop :=
  forall l l' m m', l ∈ lines -> l' ∈ lines ->
    holds3 b l m -> holds3 b l' m' -> m = m'.

(** The facts about the live state and the pending timers that every event
    keeps, whatever the click indices and whenever the timers fire. *)
Definition steady (c : Config) : Prop :=
  open_round (live c) /\ single_mark_lines (board (live c))
  /\ Forall timer_checked (timers c).

(** * Properties *)

(** Case split on a cell index known to lie in [0,8]. *)
Ltac cell_cases k :=
  let Hc := fresh "Hc" in
  assert (Hc : k = 0 \/ k = 1 \/ k = 2 \/ k = 3 \/ k = 4 \/ k = 5
               \/ k = 6 \/ k = 7 \/ k = 8) by lia;
  destruct Hc as [->|[->|[->|[->|[->|[->|[->|[->| ->]]]]]]]].

Lemma arr_get_swapBoard b k :
  arr_get (swapBoard b) k = fmap swapCell (arr_get b k).
Proof. unfold arr_get, swapBoard; simpl. apply lookup_fmap. Qed.

Lemma swap_get_eq (u v : option Cell) :
  bool_decide (fmap swapCell u = fmap swapCell v) = bool_decide (u = v).
Proof.
  apply bool_decide_ext.
  destruct u as [[[]|]|], v as [[[]|]|]; simpl; split; congruence.
Qed.

Lemma lineWinner_swap b l :
  lineWinner (swapBoard b) l = other <$> lineWinner b l.
Proof.
  destruct l as [[x y] z]. unfold lineWinner.
  rewrite !arr_get_swapBoard, !swap_get_eq.
  destruct (arr_get b x) as [[p|]|]; simpl; try reflexivity.
  destruct (bool_decide _ && bool_decide _); reflexivity.
Qed.

Lemma firstWinner_swap b ls :
  firstWinner (swapBoard b) ls = other <$> firstWinner b ls.
Proof.
  induction ls as [|l ls IH]; simpl; [reflexivity|].
  rewrite lineWinner_swap.
  destruct (lineWinner b l); simpl; [reflexivity | exact IH].
Qed.

(** C9. For every 9-cell board, the win check commutes with exchanging the
    two marks: [getWinner (swapBoard b)] is [getWinner b] with its mark
    exchanged (and is [null] exactly when [getWinner b] is). *)
Theorem getWinner_swap (b : JSArray) :
  is_board9 b -> getWinner (swapBoard b) = other <$> getWinner b.
Proof. intros _. apply firstWinner_swap. Qed.

Lemma getWinner_swap_witness :
  let b := board (placeMark (placeMark (placeMark (placeMark (placeMark
             initialState 0) 3) 1) 4) 2) in
  getWinner b = Some X /\ getWinner (swapBoard b) = Some O.
Proof.
  cbv zeta.
  set (b := board (placeMark (placeMark (placeMark (placeMark (placeMark
               initialState 0) 3) 1) 4) 2)).
  assert (H9 : is_board9 b).
  { split; [reflexivity|]. intros k Hk.
    cell_cases k; vm_compute; eauto. }
  assert (Hx : getWinner b = Some X) by (vm_compute; reflexivity).
  split; [exact Hx|].
  rewrite (getWinner_swap b H9), Hx. reflexivity.
Defined.

(** ** Reading a board after [slice] and an assignment *)

Lemma arr_get_slice b k :
  arr_get (slice b) k
  = if decide (0 <= k < arr_length b) then arr_get b k else None.
Proof.
  unfold arr_get, slice; simpl. rewrite map_lookup_filter.
  destruct (arr_props b !! k) as [v|]; simpl.
  - case_decide; case_guard; simpl in *; try reflexivity; tauto.
  - case_decide; reflexivity.
Qed.

Lemma arr_get_set b k v j :
  arr_get (arr_set b k v) j = if decide (k = j) then Some v else arr_get b j.
Proof. unfold arr_get, arr_set; simpl. apply lookup_insert. Qed.

Lemma arr_get_placed b idx p k :
  arr_get (arr_set (slice b) idx (Some p)) k
  = if decide (idx = k) then Some (Some p)
    else if decide (0 <= k < arr_length b) then arr_get b k else None.
Proof. rewrite arr_get_set, arr_get_slice. reflexivity. Qed.

Lemma arr_length_placed b idx p :
  arr_length (arr_set (slice b) idx (Some p))
  = if is_index idx && (arr_length b <=? idx) then idx + 1 else arr_length b.
Proof. reflexivity. Qed.

(** ** Rejected placements *)

Lemma makeMove_rejected r idx s :
  truthy (arr_get (board r) idx) = true \/ winner r <> NoResult ->
  makeMove r idx s = None.
Proof.
  intros [H|H]; unfold makeMove.
  - rewrite H. reflexivity.
  - destruct (winner r); [congruence| |]; simpl;
      rewrite orb_true_r; reflexivity.
Qed.

(** C2. For every state and every cell index in [0,8], when the target
    cell already holds a mark or the round has a result, [placeMark] takes
    the early return: no setter runs, so board, turn, result, score, AI mode
    and starting player are all unchanged; the call is total, nothing is
    raised. *)
Theorem placeMark_rejected_noop (s : State) (idx : Z) :
  0 <= idx <= 8 ->
  truthy (arr_get (board s) idx) = true \/ winner s <> NoResult ->
  makeMove s idx s = None /\ placeMark s idx = s.
Proof.
  intros _ H. unfold placeMark.
  rewrite (makeMove_rejected s idx s H). split; reflexivity.
Qed.

Lemma placeMark_rejected_noop_witness :
  makeMove (placeMark initialState 4) 4 (placeMark initialState 4) = None
  /\ placeMark (placeMark initialState 4) 4 = placeMark initialState 4.
Proof.
  apply (placeMark_rejected_noop (placeMark initialState 4) 4);
    [lia | left; vm_compute; reflexivity].
Defined.

(** ** Effective placements *)

Lemma makeMove_accepted r idx s :
  truthy (arr_get (board r) idx) = false -> winner r = NoResult ->
  makeMove r idx s =
    let newBoard := arr_set (slice (board r)) idx (Some (current r)) in
    match getWinner newBoard with
    | Some possibleWinner =>
        Some (setScore (bump possibleWinner)
               (setWinner (Won possibleWinner) (setBoard newBoard s)))
    | None =>
        if isBoardFull newBoard
        then Some (setWinner Draw (setBoard newBoard s))
        else Some (setCurrent (other (current r)) (setBoard newBoard s))
    end.
Proof. intros H1 H2. unfold makeMove. rewrite H1, H2. reflexivity. Qed.

Lemma makeMove_board r idx s s' :
  makeMove r idx s = Some s' ->
  truthy (arr_get (board r) idx) = false /\ winner r = NoResult
  /\ board s' = arr_set (slice (board r)) idx (Some (current r))
  /\ aiMode s' = aiMode s /\ startingPlayer s' = startingPlayer s.
Proof.
  unfold makeMove. intros H.
  destruct (truthy (arr_get (board r) idx)) eqn:Ht; [discriminate|].
  destruct (winner r) eqn:Hw; try discriminate. simpl in H.
  destruct (getWinner _); [|destruct (isBoardFull _)];
    inversion H; subst; simpl; auto.
Qed.

Lemma placeMark_changes s idx :
  truthy (arr_get (board s) idx) = false -> winner s = NoResult ->
  arr_get (board (placeMark s idx)) idx = Some (Some (current s))
  /\ placeMark s idx <> s.
Proof.
  intros Ht Hw. unfold placeMark.
  destruct (makeMove s idx s) as [s'|] eqn:Hm.
  - apply makeMove_board in Hm as (_ & _ & Hb & _). simpl.
    assert (Hg : arr_get (board s') idx = Some (Some (current s))).
    { rewrite Hb, arr_get_placed. case_decide; [reflexivity|congruence]. }
    split; [exact Hg|]. intros ->. rewrite Hg in Ht. discriminate.
  - rewrite makeMove_accepted in Hm by assumption. simpl in Hm.
    destruct (getWinner _); [|destruct (isBoardFull _)]; discriminate.
Qed.

Lemma placeMark_keeps_cells s idx k :
  0 <= k < arr_length (board s) -> truthy (arr_get (board s) k) = true ->
  arr_get (board (placeMark s idx)) k = arr_get (board s) k.
Proof.
  intros Hk Hm. unfold placeMark.
  destruct (makeMove s idx s) as [s'|] eqn:E; [|reflexivity].
  apply makeMove_board in E as (Ht & _ & Hb & _). simpl.
  rewrite Hb, arr_get_placed.
  case_decide; [subst; congruence|]. case_decide; [reflexivity|lia].
Qed.

Lemma placeMark_other_cells s idx k :
  0 <= k < arr_length (board s) -> k <> idx ->
  arr_get (board (placeMark s idx)) k = arr_get (board s) k.
Proof.
  intros Hk Hne. unfold placeMark.
  destruct (makeMove s idx s) as [s'|] eqn:E; [|reflexivity].
  apply makeMove_board in E as (Ht & _ & Hb & _). simpl.
  rewrite Hb, arr_get_placed.
  case_decide; [congruence|]. case_decide; [reflexivity|lia].
Qed.

Lemma placeMark_length s idx :
  truthy (arr_get (board s) idx) = false -> winner s = NoResult ->
  arr_length (board (placeMark s idx))
  = if is_index idx && (arr_length (board s) <=? idx)
    then idx + 1 else arr_length (board s).
Proof.
  intros Ht Hw. unfold placeMark.
  destruct (makeMove s idx s) as [s'|] eqn:E.
  - apply makeMove_board in E as (_ & _ & Hb & _). simpl.
    rewrite Hb. apply arr_length_placed.
  - rewrite makeMove_accepted in E by assumption. cbv zeta in E.
    destruct (getWinner _); [|destruct (isBoardFull _)]; discriminate.
Qed.

(** C3, as the code has it.  For every state and every integer index
    outside [0,8]: the call is a silent no-op when the round has a result
    or the board already holds a mark under that index; otherwise it is not
    a no-op: the current mark is stored under that index, every other
    element of the board keeps its value, and the state changes.  The
    length of the board becomes [idx + 1] when [idx] is an array index
    (from 0 to 4294967294) at or past the length, and stays as it was
    otherwise: below the length, negative, or from 4294967295 on, where
    the mark is stored as an ordinary property. *)
Theorem placeMark_out_of_range (s : State) (idx : Z) :
  ~ 0 <= idx <= 8 ->
  (truthy (arr_get (board s) idx) = true \/ winner s <> NoResult ->
     placeMark s idx = s)
  /\ (truthy (arr_get (board s) idx) = false -> winner s = NoResult ->
        arr_get (board (placeMark s idx)) idx = Some (Some (current s))
        /\ (forall k, 0 <= k < arr_length (board s) -> k <> idx ->
              arr_get (board (placeMark s idx)) k = arr_get (board s) k)
        /\ placeMark s idx <> s
        /\ (0 <= idx -> arr_length (board s) <= idx -> idx < 4294967295 ->
              arr_length (board (placeMark s idx)) = idx + 1)
        /\ (idx < 0 \/ idx < arr_length (board s) \/ 4294967295 <= idx ->
              arr_length (board (placeMark s idx)) = arr_length (board s))).
Proof.
  intros _. split.
  - intros H. unfold placeMark. rewrite (makeMove_rejected s idx s H).
    reflexivity.
  - intros Ht Hw. destruct (placeMark_changes s idx Ht Hw) as [H1 H2].
    split; [exact H1|]. split.
    { intros k Hk Hne. apply placeMark_other_cells; assumption. }
    split; [exact H2|].
    rewrite (placeMark_length s idx Ht Hw). unfold is_index.
    change (2 ^ 32 - 1) with 4294967295.
    split.
    + intros H0 Hlen Hmax.
      replace (0 <=? idx) with true by (symmetry; apply Z.leb_le; lia).
      replace (idx <? 4294967295) with true by (symmetry; apply Z.ltb_lt; lia).
      replace (arr_length (board s) <=? idx) with true
        by (symmetry; apply Z.leb_le; lia).
      reflexivity.
    + intros Hc.
      destruct (0 <=? idx) eqn:E0; [|reflexivity].
      destruct (idx <? 4294967295) eqn:E1; [|reflexivity].
      destruct (arr_length (board s) <=? idx) eqn:E2; [|reflexivity].
      apply Z.leb_le in E0, E2. apply Z.ltb_lt in E1. lia.
Qed.

Lemma placeMark_out_of_range_witness :
  (arr_get (board (placeMark initialState 9)) 9 = Some (Some X)
   /\ placeMark initialState 9 <> initialState
   /\ arr_length (board (placeMark initialState 9)) = 10)
  /\ (arr_get (board (placeMark initialState 4294967295)) 4294967295
      = Some (Some X)
      /\ placeMark initialState 4294967295 <> initialState
      /\ arr_length (board (placeMark initialState 4294967295)) = 9)
  /\ placeMark (placeMark initialState 9) 9 = placeMark initialState 9.
Proof.
  split; [|split].
  - destruct (placeMark_out_of_range initialState 9 ltac:(lia))
      as [_ H]. destruct (H eq_refl eq_refl) as (H1 & _ & H2 & H3 & _).
    split; [exact H1|]. split; [exact H2|].
    apply (H3 ltac:(lia) ltac:(simpl; lia) ltac:(lia)).
  - destruct (placeMark_out_of_range initialState 4294967295 ltac:(lia))
      as [_ H]. destruct (H eq_refl eq_refl) as (H1 & _ & H2 & _ & H4).
    split; [exact H1|]. split; [exact H2|].
    apply H4. right. right. lia.
  - destruct (placeMark_out_of_range (placeMark initialState 9) 9 ltac:(lia))
      as [H _]. apply H. left. vm_compute. reflexivity.
Defined.

(** C3, as stated, fails: from the initial state a click on index 9 is not
    a no-op; the board grows to ten elements, the tenth holding X, and the
    turn passes to O. *)
Lemma placeMark_index_9_not_noop :
  bool_decide (placeMark initialState 9 = initialState) = false
  /\ arr_length (board (placeMark initialState 9)) = 10
  /\ arr_get (board (placeMark initialState 9)) 9 = Some (Some X)
  /\ current (placeMark initialState 9) = O.
Proof. vm_compute. repeat split. Qed.

(** C6. For every state, [restartGame] empties the board (nine cells, all
    [null]), clears the result, flips the starting player (X becomes O and
    O becomes X) and gives the turn to the new starting player; score and
    AI mode are untouched. *)
Theorem restartGame_effect (s : State) :
  board (restartGame s) = EMPTY_BOARD
  /\ all_empty (board (restartGame s))
  /\ arr_length (board (restartGame s)) = 9
  /\ winner (restartGame s) = NoResult
  /\ startingPlayer (restartGame s) = other (startingPlayer s)
  /\ startingPlayer (restartGame s) <> startingPlayer s
  /\ (startingPlayer s = X -> startingPlayer (restartGame s) = O)
  /\ (startingPlayer s = O -> startingPlayer (restartGame s) = X)
  /\ current (restartGame s) = startingPlayer (restartGame s)
  /\ score (restartGame s) = score s
  /\ aiMode (restartGame s) = aiMode s.
Proof.
  split; [reflexivity|]. split.
  { intros k Hk. simpl. cell_cases k; reflexivity. }
  do 3 (split; [reflexivity|]).
  split; [simpl; destruct (startingPlayer s); discriminate|].
  split; [intros H; simpl; rewrite H; reflexivity|].
  split; [intros H; simpl; rewrite H; reflexivity|].
  repeat split.
Qed.

Lemma arr_get_EMPTY_outside k :
  ~ 0 <= k < 9 -> arr_get EMPTY_BOARD k = None.
Proof.
  intros Hk. unfold arr_get, EMPTY_BOARD; cbn [arr_props].
  destruct (_ !! k) as [v|] eqn:E; [|reflexivity].
  apply elem_of_list_to_map_2 in E.
  apply list_elem_of_fmap in E as (j & Ej & Hj).
  inversion Ej; subst. apply elem_of_seqZ in Hj. lia.
Qed.

(** C7. For every state, [resetAll] yields exactly the state of a freshly
    mounted component, and that state is: a board of nine cells, all
    [null], with nothing stored outside them; no result; score 0:0; AI
    mode off; starting player X and turn X. *)
Theorem resetAll_initial (s : State) :
  let fresh (t : State) :=
    all_empty (board t)
    /\ arr_length (board t) = 9
    /\ (forall k, ~ 0 <= k < 9 -> arr_get (board t) k = None)
    /\ winner t = NoResult
    /\ score_X (score t) = 0%N /\ score_O (score t) = 0%N
    /\ aiMode t = false
    /\ startingPlayer t = X
    /\ current t = X in
  resetAll s = initialState
  /\ fresh (resetAll s)
  /\ fresh initialState
  /\ board initialState = EMPTY_BOARD
  /\ score initialState = mkScore 0 0.
Proof.
  cbv zeta.
  assert (Hfresh :
    all_empty (board initialState)
    /\ arr_length (board initialState) = 9
    /\ (forall k, ~ 0 <= k < 9 -> arr_get (board initialState) k = None)
    /\ winner initialState = NoResult
    /\ score_X (score initialState) = 0%N /\ score_O (score initialState) = 0%N
    /\ aiMode initialState = false
    /\ startingPlayer initialState = X
    /\ current initialState = X).
  { split; [intros k Hk; simpl; cell_cases k; reflexivity|].
    split; [reflexivity|].
    split; [intros k Hk; apply arr_get_EMPTY_outside; exact Hk|].
    repeat split. }
  split; [reflexivity|]. split; [exact Hfresh|]. split; [exact Hfresh|].
  split; reflexivity.
Qed.

(** ** The win check, line by line *)

Lemma lineWinner_spec b l m : lineWinner b l = Some m <-> holds3 b l m.
Proof.
  destruct l as [[x y] z]. unfold lineWinner, holds3. split.
  - destruct (arr_get b x) as [[p|]|] eqn:Hx; try discriminate.
    case_bool_decide as H1; simpl; [|discriminate].
    case_bool_decide as H2; simpl; [|discriminate].
    intros [= ->]. auto.
  - intros (Hx & Hy & Hz). rewrite Hx, Hy, Hz.
    rewrite !bool_decide_eq_true_2 by reflexivity. reflexivity.
Qed.

Lemma firstWinner_Some b ls m :
  firstWinner b ls = Some m -> exists l, l ∈ ls /\ lineWinner b l = Some m.
Proof.
  induction ls as [|l ls IH]; simpl; [discriminate|].
  destruct (lineWinner b l) eqn:E.
  - intros [= ->]. exists l. split; [left|exact E].
  - intros H. destruct (IH H) as (l' & Hin & Hl').
    exists l'. split; [right; exact Hin|exact Hl'].
Qed.

Lemma firstWinner_None b ls :
  firstWinner b ls = None <-> forall l, l ∈ ls -> lineWinner b l = None.
Proof.
  induction ls as [|l ls IH]; simpl.
  - split; [intros _ l H; inversion H|reflexivity].
  - destruct (lineWinner b l) eqn:E.
    + split; [discriminate|]. intros H.
      rewrite (H l) in E by left. discriminate.
    + rewrite IH. split.
      * intros H l' Hin. inversion Hin; subst; [exact E|auto].
      * intros H l' Hin. apply H. right. exact Hin.
Qed.

Lemma has_line_getWinner b : has_line b <-> getWinner b <> None.
Proof.
  unfold has_line, getWinner. split.
  - intros (l & m & Hin & H3) Hn.
    rewrite firstWinner_None in Hn. apply lineWinner_spec in H3.
    rewrite (Hn l Hin) in H3. discriminate.
  - intros Hn. destruct (firstWinner b lines) as [m|] eqn:E; [|congruence].
    destruct (firstWinner_Some _ _ _ E) as (l & Hin & Hl).
    exists l, m. split; [exact Hin|]. apply lineWinner_spec. exact Hl.
Qed.

Lemma lines_in_range x y z :
  (x, y, z) ∈ lines -> 0 <= x < 9 /\ 0 <= y < 9 /\ 0 <= z < 9.
Proof.
  unfold lines. rewrite !elem_of_cons, elem_of_nil.
  intros H. repeat destruct H as [H|H]; try inversion H; subst; lia.
Qed.

(** A line completed by a placement on a board without a line runs through
    the new cell, so it carries the mark just placed. *)
Lemma new_line_mark b idx p l m :
  9 <= arr_length b -> getWinner b = None -> l ∈ lines ->
  holds3 (arr_set (slice b) idx (Some p)) l m -> m = p.
Proof.
  intros Hlen Hnone Hin. destruct l as [[x y] z].
  destruct (lines_in_range _ _ _ Hin) as (Hx & Hy & Hz).
  unfold holds3. rewrite !arr_get_placed. intros (H1 & H2 & H3).
  destruct (decide (idx = x)); [congruence|].
  destruct (decide (idx = y)); [congruence|].
  destruct (decide (idx = z)); [congruence|].
  repeat case_decide; try lia.
  unfold getWinner in Hnone. rewrite firstWinner_None in Hnone.
  specialize (Hnone _ Hin).
  assert (Hl : lineWinner b (x, y, z) = Some m)
    by (apply lineWinner_spec; unfold holds3; auto).
  congruence.
Qed.

(** ** Fullness of a board *)

Lemma isBoardFull_spec b :
  isBoardFull b = true
  <-> forall k, 0 <= k < arr_length b -> arr_get b k <> Some None.
Proof.
  unfold isBoardFull, indices. rewrite forallb_forall. split.
  - intros H k Hk. specialize (H k).
    rewrite <- list_elem_of_In, elem_of_seqZ in H.
    specialize (H ltac:(lia)). apply negb_true_iff in H.
    apply bool_decide_eq_false in H. exact H.
  - intros H k Hin. rewrite <- list_elem_of_In, elem_of_seqZ in Hin.
    apply negb_true_iff, bool_decide_eq_false. apply H. lia.
Qed.

Lemma isBoardFull_all_marked b :
  wf_board b -> (isBoardFull b = true <-> all_marked b).
Proof.
  intros (Hlen & Hin & Hout). rewrite isBoardFull_spec. split.
  - intros H k Hk. destruct (Hin k Hk) as [v Hv].
    specialize (H k ltac:(lia)). rewrite Hv in *.
    destruct v; [reflexivity|congruence].
  - intros H k Hk. destruct (decide (0 <= k < 9)) as [Hk9|Hk9].
    + specialize (H k Hk9). intros E. rewrite E in H. discriminate.
    + apply Hout. exact Hk9.
Qed.

(** ** Well-formedness is kept by every event *)

Lemma wf_board_EMPTY : wf_board EMPTY_BOARD.
Proof.
  split; [simpl; lia|]. split.
  - intros k Hk.
    cell_cases k; vm_compute; eauto.
  - intros k Hk. unfold arr_get, EMPTY_BOARD; cbn [arr_props].
    intros E. apply elem_of_list_to_map_2 in E.
    apply list_elem_of_fmap in E as (j & Ej & Hj).
    inversion Ej; subst. apply elem_of_seqZ in Hj. lia.
Qed.

Lemma wf_board_placed b idx p :
  wf_board b -> wf_board (arr_set (slice b) idx (Some p)).
Proof.
  intros (Hlen & Hin & Hout). split; [|split].
  - rewrite arr_length_placed.
    destruct (is_index idx && (arr_length b <=? idx)) eqn:E; [|exact Hlen].
    apply andb_true_iff in E as [_ E]. lia.
  - intros k Hk. rewrite arr_get_placed.
    case_decide; [eauto|]. case_decide; [auto|lia].
  - intros k Hk. rewrite arr_get_placed.
    case_decide; [discriminate|]. case_decide; [auto|discriminate].
Qed.

Lemma wf_state_makeMove r idx s s' :
  wf_board (board r) -> makeMove r idx s = Some s' -> wf_state s'.
Proof.
  intros Hwf H.
  pose proof (makeMove_board _ _ _ _ H) as (Ht & Hw & Hb & _).
  split; [rewrite Hb; apply wf_board_placed; exact Hwf|].
  rewrite makeMove_accepted in H by assumption. simpl in H. rewrite Hb.
  destruct (getWinner _) eqn:Eg; [|destruct (isBoardFull _)];
    inversion H; subst; simpl; try discriminate. auto.
Qed.

Lemma aiMove_render r pick t : aiMove r pick = Some t -> t.1 = r.
Proof.
  unfold aiMove. destruct (_ || _); [discriminate|].
  destruct (0 <? _)%nat; [|discriminate].
  destruct (_ !! _); simpl; [intros [= <-]; reflexivity|discriminate].
Qed.

Lemma wf_config_render s pick pending :
  wf_state s -> Forall (fun t : Timer => wf_state t.1) pending ->
  wf_config (render s pick pending).
Proof.
  intros Hs Hp. split; [exact Hs|]. simpl. apply Forall_app. split; [exact Hp|].
  destruct (aiMove s pick) as [t|] eqn:E; simpl; constructor; [|constructor].
  rewrite (aiMove_render _ _ _ E). exact Hs.
Qed.

Lemma wf_state_restartGame s : wf_state (restartGame s).
Proof. split; [apply wf_board_EMPTY|reflexivity]. Qed.

Lemma wf_state_resetAll s : wf_state (resetAll s).
Proof. split; [apply wf_board_EMPTY|reflexivity]. Qed.

Lemma wf_config_exec c e pick : wf_config c -> wf_config (exec c e pick).
Proof.
  intros [Hl Ht]. destruct e; simpl.
  - destruct (makeMove (live c) idx (live c)) as [s'|] eqn:E; [|split; auto].
    apply wf_config_render; [|exact Ht].
    eapply wf_state_makeMove; [apply Hl|exact E].
  - apply wf_config_render; [apply wf_state_restartGame|exact Ht].
  - apply wf_config_render; [apply wf_state_resetAll|exact Ht].
  - unfold aiToggleClick. destruct (aiToggleDisabled (live c)); [split; auto|].
    apply wf_config_render; [exact Hl|exact Ht].
  - destruct (timers c) as [|[r move] pending] eqn:Et;
      [split; [exact Hl|rewrite Et; exact Ht]|].
    apply Forall_cons in Ht as [Hr Hp]. simpl in Hr.
    destruct (makeMove r move (live c)) as [s'|] eqn:E.
    + apply wf_config_render; [|exact Hp].
      eapply wf_state_makeMove; [apply Hr|exact E].
    + split; [exact Hl|exact Hp].
Qed.

Lemma reachable_by_wf allowed c : reachable_by allowed c -> wf_config c.
Proof.
  induction 1 as [|c e pick _ IH _].
  - split; [|constructor]. split; [apply wf_board_EMPTY|reflexivity].
  - apply wf_config_exec. exact IH.
Qed.

Lemma reachable_by_run allowed c trace :
  reachable_by allowed c ->
  Forall (fun ep : Event * nat => forall c', allowed c' ep.1) trace ->
  reachable_by allowed (run c trace).
Proof.
  intros Hc Htr. revert c Hc.
  induction Htr as [|[e pick] trace He _ IH]; intros c Hc; [exact Hc|].
  simpl. apply IH. constructor; [exact Hc|apply He].
Qed.

Lemma reachable_run trace : reachable (run initialConfig trace).
Proof.
  apply reachable_by_run; [constructor|].
  apply Forall_forall. intros ep _ c'. exact I.
Qed.

(** The effect of an accepted click, in terms of the table [lines] that
    [getWinner] scans. *)
Lemma placeMark_effect_lines (c : Config) (idx : Z) :
  reachable c -> winner (live c) = NoResult -> 0 <= idx <= 8 ->
  arr_get (board (live c)) idx = Some None ->
  let s := live c in
  let s' := placeMark s idx in
  let newBoard := arr_set (slice (board s)) idx (Some (current s)) in
  board s' = newBoard
  /\ arr_get newBoard idx = Some (Some (current s))
  /\ (forall k, 0 <= k < 9 -> k <> idx ->
        arr_get newBoard k = arr_get (board s) k)
  /\ aiMode s' = aiMode s /\ startingPlayer s' = startingPlayer s
  /\ (forall l m, l ∈ lines -> holds3 newBoard l m ->
        winner s' = Won m
        /\ score_of (score s') m = (score_of (score s) m + 1)%N
        /\ score_of (score s') (other m) = score_of (score s) (other m)
        /\ current s' = current s)
  /\ (~ has_line newBoard -> all_marked newBoard ->
        winner s' = Draw /\ score s' = score s)
  /\ (~ has_line newBoard -> ~ all_marked newBoard ->
        winner s' = NoResult /\ current s' = other (current s)
        /\ score s' = score s)
  /\ (forall m, winner s' = Won m -> has_line newBoard)
  /\ (winner s' = Draw -> ~ has_line newBoard /\ all_marked newBoard).
Proof.
  intros Hreach Hw Hidx Hcell s s' newBoard.
  destruct (reachable_by_wf _ _ Hreach) as [[Hwfb Hnone] _].
  fold s in Hwfb, Hnone, Hw, Hcell. specialize (Hnone Hw).
  assert (Htr : truthy (arr_get (board s) idx) = false)
    by (rewrite Hcell; reflexivity).
  assert (Hwfn : wf_board newBoard) by (apply wf_board_placed; exact Hwfb).
  assert (Hlen : 9 <= arr_length (board s)) by apply Hwfb.
  assert (Hmv := makeMove_accepted s idx s Htr Hw).
  cbv zeta in Hmv. fold newBoard in Hmv.
  pose proof (has_line_getWinner newBoard) as Hline.
  pose proof (isBoardFull_all_marked newBoard Hwfn) as Hfull.
  assert (Hmark : forall l m, l ∈ lines -> holds3 newBoard l m -> m = current s).
  { intros l m Hin H3. eapply new_line_mark; eauto. }
  assert (Hs' : s' = default s (makeMove s idx s)) by reflexivity.
  split.
  { rewrite Hs', Hmv.
    destruct (getWinner newBoard); [|destruct (isBoardFull newBoard)];
      reflexivity. }
  split.
  { unfold newBoard. rewrite arr_get_placed. case_decide; [reflexivity|congruence]. }
  split.
  { intros k Hk Hne. unfold newBoard. rewrite arr_get_placed.
    case_decide; [congruence|]. case_decide; [reflexivity|lia]. }
  destruct (getWinner newBoard) as [pw|] eqn:Eg.
  - (* a line is complete *)
    assert (Hhas : has_line newBoard) by (apply Hline; congruence).
    assert (Hpw : pw = current s).
    { destruct (firstWinner_Some _ _ _ Eg) as (l & Hin & Hl).
      apply lineWinner_spec in Hl. eauto. }
    subst pw. rewrite Hs', Hmv. simpl.
    split; [reflexivity|]. split; [reflexivity|]. split.
    { intros l m Hin H3. rewrite (Hmark l m Hin H3).
      destruct (current s); repeat split; reflexivity. }
    split; [tauto|]. split; [tauto|].
    split; [intros; exact Hhas|intros Hm; discriminate].
  - (* no line *)
    assert (Hno : ~ has_line newBoard) by (rewrite Hline; congruence).
    assert (Hnl : forall l m, l ∈ lines -> ~ holds3 newBoard l m).
    { intros l m Hin H3. apply Hno. exists l, m. auto. }
    rewrite Hs', Hmv.
    destruct (isBoardFull newBoard) eqn:Ef; simpl.
    + assert (Hall : all_marked newBoard) by (apply Hfull; reflexivity).
      split; [reflexivity|]. split; [reflexivity|]. split.
      { intros l m Hin H3. destruct (Hnl l m Hin H3). }
      split; [intros _ _; auto|]. split; [tauto|].
      split; [intros m Hm; discriminate|intros _; auto].
    + assert (Hnall : ~ all_marked newBoard).
      { rewrite <- Hfull. congruence. }
      split; [reflexivity|]. split; [reflexivity|]. split.
      { intros l m Hin H3. destruct (Hnl l m Hin H3). }
      split; [tauto|]. split; [intros _ _; rewrite Hw; auto|].
      split; [intros m Hm|intros Hm]; rewrite Hw in Hm; discriminate.
Qed.

(** C1. In every reachable state whose round has no result, a click on an
    empty cell [idx] of [0,8] writes the current mark into that cell (the
    other cells, AI mode and starting player keep their values) and then:
    if one of the eight triples (0,1,2), (3,4,5), (6,7,8), (0,3,6),
    (1,4,7), (2,5,8), (0,4,8), (2,4,6) of the new board holds three equal
    marks [m], the result is [Won m], the score of [m] grows by exactly
    one, the other score and the turn stay; otherwise, if all nine cells
    are marked, the result is [Draw] and the score stays; otherwise the
    turn passes to the other mark and result and score stay.  A win is
    recorded only with such a triple and a draw only without one, so one
    call never sets both. *)
Theorem placeMark_effect (c : Config) (idx : Z) :
  reachable c -> winner (live c) = NoResult -> 0 <= idx <= 8 ->
  arr_get (board (live c)) idx = Some None ->
  let s := live c in
  let s' := placeMark s idx in
  let newBoard := arr_set (slice (board s)) idx (Some (current s)) in
  let eight := [ (0, 1, 2); (3, 4, 5); (6, 7, 8);
                 (0, 3, 6); (1, 4, 7); (2, 5, 8);
                 (0, 4, 8); (2, 4, 6) ] in
  let complete := exists l m, l ∈ eight /\ holds3 newBoard l m in
  board s' = newBoard
  /\ arr_get newBoard idx = Some (Some (current s))
  /\ (forall k, 0 <= k < 9 -> k <> idx ->
        arr_get newBoard k = arr_get (board s) k)
  /\ aiMode s' = aiMode s /\ startingPlayer s' = startingPlayer s
  /\ (forall l m, l ∈ eight -> holds3 newBoard l m ->
        winner s' = Won m
        /\ score_of (score s') m = (score_of (score s) m + 1)%N
        /\ score_of (score s') (other m) = score_of (score s) (other m)
        /\ (forall p, p <> m -> score_of (score s') p = score_of (score s) p)
        /\ current s' = current s)
  /\ (~ complete -> all_marked newBoard ->
        winner s' = Draw /\ score s' = score s)
  /\ (~ complete -> ~ all_marked newBoard ->
        winner s' = NoResult /\ current s' = other (current s)
        /\ current s' <> current s
        /\ score s' = score s)
  /\ (forall m, winner s' = Won m -> complete)
  /\ (winner s' = Draw -> ~ complete /\ all_marked newBoard).
Proof.
  intros Hreach Hw Hidx Hcell.
  pose proof (placeMark_effect_lines c idx Hreach Hw Hidx Hcell) as H.
  cbv zeta in *. unfold has_line, lines in H.
  destruct H as (H1 & H2 & H3 & H4 & H5 & Hwin & Hdraw & Hflip & H9 & H10).
  do 5 (split; [assumption|]).
  split.
  { intros l m Hin Hl. destruct (Hwin l m Hin Hl) as (Ha & Hb & Hc & Hd).
    repeat (split; [assumption|]). split; [|exact Hd].
    intros p Hp. replace p with (other m); [exact Hc|].
    destruct p, m; simpl; congruence. }
  split; [exact Hdraw|]. split; [|split; assumption].
  intros Hn Hna. destruct (Hflip Hn Hna) as (Ha & Hb & Hc).
  repeat (split; [assumption|]). split; [|exact Hc].
  rewrite Hb. destruct (current (live c)); discriminate.
Qed.

Lemma placeMark_effect_witness :
  let c := run initialConfig
             [(Click 0, 0%nat); (Click 1, 0%nat); (Click 4, 0%nat);
              (Click 2, 0%nat)] in
  let d := run initialConfig
             [(Click 0, 0%nat); (Click 1, 0%nat); (Click 2, 0%nat);
              (Click 4, 0%nat); (Click 3, 0%nat); (Click 5, 0%nat);
              (Click 7, 0%nat); (Click 6, 0%nat)] in
  (winner (placeMark (live c) 8) = Won X
   /\ score_of (score (placeMark (live c) 8)) X
      = (score_of (score (live c)) X + 1)%N
   /\ current (placeMark (live c) 8) = current (live c))
  /\ (winner (placeMark (live d) 8) = Draw
      /\ score (placeMark (live d) 8) = score (live d))
  /\ (winner (placeMark initialState 4) = NoResult
      /\ current (placeMark initialState 4) = O).
Proof.
  cbv zeta.
  set (trc := [(Click 0, 0%nat); (Click 1, 0%nat); (Click 4, 0%nat);
               (Click 2, 0%nat)]).
  set (trd := [(Click 0, 0%nat); (Click 1, 0%nat); (Click 2, 0%nat);
               (Click 4, 0%nat); (Click 3, 0%nat); (Click 5, 0%nat);
               (Click 7, 0%nat); (Click 6, 0%nat)]).
  split; [|split].
  - (* X completes the diagonal 0-4-8 *)
    assert (Hw : winner (live (run initialConfig trc)) = NoResult)
      by (vm_compute; reflexivity).
    assert (Hcell : arr_get (board (live (run initialConfig trc))) 8 = Some None)
      by (vm_compute; reflexivity).
    pose proof (placeMark_effect (run initialConfig trc) 8
                  (reachable_run trc) Hw ltac:(lia) Hcell)
      as (_ & _ & _ & _ & _ & Hwin & _).
    destruct (Hwin (0, 4, 8) X) as (H1 & H2 & _ & _ & H3).
    + do 6 right. left.
    + vm_compute. auto.
    + auto.
  - (* the ninth mark, no triple *)
    assert (Hw : winner (live (run initialConfig trd)) = NoResult)
      by (vm_compute; reflexivity).
    assert (Hcell : arr_get (board (live (run initialConfig trd))) 8 = Some None)
      by (vm_compute; reflexivity).
    pose proof (placeMark_effect (run initialConfig trd) 8
                  (reachable_run trd) Hw ltac:(lia) Hcell)
      as (_ & _ & _ & _ & _ & _ & Hdraw & _).
    apply Hdraw.
    + change (~ has_line (arr_set (slice (board (live (run initialConfig trd))))
                            8 (Some (current (live (run initialConfig trd)))))).
      rewrite has_line_getWinner. vm_compute. congruence.
    + intros k Hk. cell_cases k; vm_compute; reflexivity.
  - (* the first mark of a round *)
    assert (Hr : reachable initialConfig) by constructor.
    pose proof (placeMark_effect initialConfig 4 Hr eq_refl ltac:(lia) eq_refl)
      as (_ & _ & _ & _ & _ & _ & _ & Hflip & _).
    destruct Hflip as (H1 & H2 & _).
    + change (~ has_line (arr_set (slice (board initialState)) 4 (Some X))).
      rewrite has_line_getWinner. vm_compute. congruence.
    + intros H. specialize (H 0 ltac:(lia)). vm_compute in H. discriminate.
    + split; assumption.
Defined.

(** ** The lock of the AI button *)

Lemma someMark_spec b : someMark b = true <-> occupied b.
Proof.
  unfold someMark, occupied, indices. rewrite existsb_exists. split.
  - intros (k & Hin & Hk). rewrite <- list_elem_of_In, elem_of_seqZ in Hin.
    exists k. split; [lia|exact Hk].
  - intros (k & Hr & Hk). exists k. split; [|exact Hk].
    rewrite <- list_elem_of_In, elem_of_seqZ. lia.
Qed.

Lemma aiToggleDisabled_spec s :
  aiToggleDisabled s = true
  <-> occupied (board s)
      \/ score_X (score s) <> 0%N \/ score_O (score s) <> 0%N.
Proof.
  unfold aiToggleDisabled.
  rewrite !orb_true_iff, someMark_spec, !N.ltb_lt. split.
  - intros [[H|H]|H]; [right; left; lia|right; right; lia|left; exact H].
  - intros [H|[H|H]]; [right; exact H|left; left; lia|left; right; lia].
Qed.

Lemma makeMove_score r idx s s' :
  makeMove r idx s = Some s' ->
  (score_X (score s) <= score_X (score s'))%N
  /\ (score_O (score s) <= score_O (score s'))%N.
Proof.
  unfold makeMove. destruct (_ || _); [discriminate|].
  destruct (getWinner _) as [[]|]; [| |destruct (isBoardFull _)];
    intros [= <-]; simpl; lia.
Qed.

Lemma occupied_placed b idx p :
  0 <= idx < arr_length b -> occupied (arr_set (slice b) idx (Some p)).
Proof.
  intros Hr. exists idx. rewrite arr_length_placed, arr_get_placed.
  split; [|case_decide; [reflexivity|congruence]].
  destruct (is_index idx && (arr_length b <=? idx)); lia.
Qed.

Lemma occupied_kept b idx p :
  truthy (arr_get b idx) = false -> occupied b ->
  occupied (arr_set (slice b) idx (Some p)).
Proof.
  intros Hf (k & Hk & Ht). exists k.
  rewrite arr_length_placed, arr_get_placed. split.
  - destruct (is_index idx && (arr_length b <=? idx)) eqn:E; [|lia].
    apply andb_true_iff in E as [_ E]. lia.
  - case_decide; [subst; congruence|]. case_decide; [exact Ht|lia].
Qed.

Lemma lock_placeMark s idx :
  aiToggleDisabled s = true -> aiToggleDisabled (placeMark s idx) = true.
Proof.
  unfold placeMark. destruct (makeMove s idx s) as [s'|] eqn:E; [|auto].
  simpl. rewrite !aiToggleDisabled_spec.
  pose proof (makeMove_score _ _ _ _ E) as [Hx Ho].
  pose proof (makeMove_board _ _ _ _ E) as (Ht & _ & Hb & _).
  intros [H|[H|H]]; [left|right; left; lia|right; right; lia].
  rewrite Hb. apply occupied_kept; assumption.
Qed.

Lemma lock_restartGame s :
  score s <> mkScore 0 0 -> aiToggleDisabled (restartGame s) = true.
Proof.
  intros H. apply aiToggleDisabled_spec. right. simpl.
  destruct (score s) as [x o]. simpl.
  destruct (decide (x = 0%N)) as [->|]; [|auto].
  destruct (decide (o = 0%N)) as [->|]; [congruence|auto].
Qed.

Lemma aiMove_in_range r pick t :
  aiMove r pick = Some t -> 0 <= t.2 < arr_length (board r).
Proof.
  unfold aiMove. destruct (_ || _); [discriminate|].
  destruct (0 <? _)%nat; [|discriminate].
  destruct (_ !! _) as [m|] eqn:E; simpl; [|discriminate].
  intros [= <-]. simpl.
  apply list_elem_of_lookup_2 in E. unfold getAvailableMoves in E.
  apply list_elem_of_filter in E as [_ E]. unfold indices in E.
  apply elem_of_seqZ in E. lia.
Qed.

Lemma timers_in_range_render s pick pending :
  Forall (fun t : Timer => 0 <= t.2 < arr_length (board t.1)) pending ->
  timers_in_range (render s pick pending).
Proof.
  intros Hp. unfold timers_in_range. simpl. apply Forall_app. split; [exact Hp|].
  destruct (aiMove s pick) as [t|] eqn:E; simpl; constructor; [|constructor].
  rewrite (aiMove_render _ _ _ E). eapply aiMove_in_range. exact E.
Qed.

Lemma timers_in_range_exec c e pick :
  timers_in_range c -> timers_in_range (exec c e pick).
Proof.
  intros Ht. destruct e; simpl.
  - destruct (makeMove _ _ _); [apply timers_in_range_render|]; exact Ht.
  - apply timers_in_range_render. exact Ht.
  - apply timers_in_range_render. exact Ht.
  - destruct (aiToggleDisabled _); [|apply timers_in_range_render]; exact Ht.
  - unfold timers_in_range in Ht.
    destruct (timers c) as [|[r move] pending] eqn:Et.
    + unfold timers_in_range. rewrite Et. constructor.
    + apply Forall_cons in Ht as [_ Hp].
      destruct (makeMove _ _ _); [apply timers_in_range_render|]; exact Hp.
Qed.

Lemma reachable_by_timers_in_range allowed c :
  reachable_by allowed c -> timers_in_range c.
Proof.
  induction 1 as [|c e pick _ IH _]; [constructor|].
  apply timers_in_range_exec. exact IH.
Qed.

Lemma lock_exec c e pick :
  timers_in_range c -> aiToggleDisabled (live c) = true ->
  e <> ResetAll -> (e = Restart -> score (live c) <> mkScore 0 0) ->
  aiToggleDisabled (live (exec c e pick)) = true.
Proof.
  intros Hti Hl Hne Hre. destruct e; simpl.
  - pose proof (lock_placeMark (live c) idx Hl) as H. unfold placeMark in H.
    destruct (makeMove _ _ _); exact H.
  - apply lock_restartGame. auto.
  - congruence.
  - rewrite Hl. exact Hl.
  - unfold timers_in_range in Hti.
    destruct (timers c) as [|[r move] pending] eqn:Et; [exact Hl|].
    apply Forall_cons in Hti as [Hr _]. simpl in Hr.
    destruct (makeMove r move (live c)) as [s'|] eqn:E; [|exact Hl].
    simpl. apply aiToggleDisabled_spec. left.
    apply makeMove_board in E as (_ & _ & Hb & _). rewrite Hb.
    apply occupied_placed. exact Hr.
Qed.

(** C4, as the code has it.  The AI button changes [aiMode] only when no
    cell holds a mark and both scores are zero; whenever some cell is
    occupied or some score is nonzero the click is ignored and the whole
    state is unchanged.  The lock is lifted by [resetAll] always and by
    [restartGame] exactly when both scores are zero (it empties the
    board); no other event of a reachable configuration lifts it: not a
    click on any index, not the toggle itself, not a timer, and not
    [restartGame] while a score is nonzero. *)
Theorem ai_toggle_lock (s : State) :
  (aiToggleDisabled s = true
     <-> occupied (board s)
         \/ score_X (score s) <> 0%N \/ score_O (score s) <> 0%N)
  /\ (aiToggleDisabled s = true -> aiToggleClick s = s)
  /\ (aiToggleDisabled s = false ->
        aiToggleClick s = setAIMode negb s
        /\ aiMode (aiToggleClick s) = negb (aiMode s))
  /\ (aiMode (aiToggleClick s) <> aiMode s ->
        ~ occupied (board s) /\ score s = mkScore 0 0)
  /\ (forall idx, aiToggleDisabled s = true ->
        aiToggleDisabled (placeMark s idx) = true)
  /\ (score s <> mkScore 0 0 -> aiToggleDisabled (restartGame s) = true)
  /\ (score s = mkScore 0 0 -> aiToggleDisabled (restartGame s) = false)
  /\ (forall c e pick,
        reachable c -> live c = s -> aiToggleDisabled s = true ->
        e <> ResetAll -> (e = Restart -> score s <> mkScore 0 0) ->
        aiToggleDisabled (live (exec c e pick)) = true)
  /\ aiToggleDisabled (resetAll s) = false.
Proof.
  split; [apply aiToggleDisabled_spec|].
  split; [intros H; unfold aiToggleClick; rewrite H; reflexivity|].
  split; [intros H; unfold aiToggleClick; rewrite H; split; reflexivity|].
  split.
  { unfold aiToggleClick. intros H.
    destruct (aiToggleDisabled s) eqn:E; [congruence|].
    assert (Hn : ~ (occupied (board s)
                    \/ score_X (score s) <> 0%N \/ score_O (score s) <> 0%N)).
    { rewrite <- aiToggleDisabled_spec. congruence. }
    split; [tauto|]. destruct (score s) as [x o]. simpl in Hn.
    destruct (decide (x = 0%N)) as [->|]; [|tauto].
    destruct (decide (o = 0%N)) as [->|]; [reflexivity|tauto]. }
  split; [intros idx; apply lock_placeMark|].
  split; [apply lock_restartGame|].
  split.
  { intros H. unfold aiToggleDisabled. simpl. rewrite H. reflexivity. }
  split; [|reflexivity].
  intros c e pick Hr <- Hl Hne Hre.
  apply lock_exec; auto. eapply reachable_by_timers_in_range. exact Hr.
Qed.

Lemma ai_toggle_lock_witness :
  aiToggleDisabled (placeMark initialState 4) = true
  /\ aiToggleClick (placeMark initialState 4) = placeMark initialState 4
  /\ aiToggleDisabled (placeMark (placeMark initialState 4) 0) = true.
Proof.
  destruct (ai_toggle_lock (placeMark initialState 4))
    as (_ & Hnoop & _ & _ & Hplace & _).
  assert (Hd : aiToggleDisabled (placeMark initialState 4) = true)
    by (vm_compute; reflexivity).
  split; [exact Hd|]. split; [exact (Hnoop Hd)|exact (Hplace 0 Hd)].
Defined.

(** C4, as stated, fails: after X's click on cell 4 the button is locked
    with the score still 0:0; "Restart" empties the board and the button
    is enabled again, so the next click on it switches AI mode on without
    any [resetAll]. *)
Lemma restart_lifts_lock_at_zero_score :
  let c := run initialConfig [(Click 4, 0%nat)] in
  reachable c
  /\ aiToggleDisabled (live c) = true
  /\ aiToggleClick (live c) = live c
  /\ score (live c) = mkScore 0 0
  /\ aiToggleDisabled (restartGame (live c)) = false
  /\ aiMode (restartGame (live c)) = false
  /\ aiMode (aiToggleClick (restartGame (live c))) = true
  /\ aiMode (live (run initialConfig
                     [(Click 4, 0%nat); (Restart, 0%nat); (ToggleAI, 0%nat)]))
     = true.
Proof.
  cbv zeta. split; [apply reachable_run|].
  repeat split; vm_compute; reflexivity.
Qed.

(** ** Length of the board and permanence of marks *)

Lemma arr_length_placed_in b idx p :
  0 <= idx < arr_length b ->
  arr_length (arr_set (slice b) idx (Some p)) = arr_length b.
Proof.
  intros H. rewrite arr_length_placed.
  destruct (is_index idx && (arr_length b <=? idx)) eqn:E; [|reflexivity].
  apply andb_true_iff in E as [_ E]. lia.
Qed.

Lemma nine_cells_render s pick pending :
  arr_length (board s) = 9 ->
  Forall (fun t : Timer => arr_length (board t.1) = 9) pending ->
  nine_cells (render s pick pending).
Proof.
  intros Hs Hp. split; [exact Hs|]. simpl. apply Forall_app. split; [exact Hp|].
  destruct (aiMove s pick) as [t|] eqn:E; simpl; constructor; [|constructor].
  rewrite (aiMove_render _ _ _ E). exact Hs.
Qed.

Lemma nine_cells_exec c e pick :
  nine_cells c -> timers_in_range c -> in_range c e ->
  nine_cells (exec c e pick).
Proof.
  intros [Hl Ht] Hti He. destruct e; simpl in *.
  - destruct (makeMove (live c) idx (live c)) as [s'|] eqn:E; [|split; auto].
    apply nine_cells_render; [|exact Ht].
    apply makeMove_board in E as (_ & _ & Hb & _).
    rewrite Hb, arr_length_placed_in; [exact Hl|lia].
  - apply nine_cells_render; [reflexivity|exact Ht].
  - apply nine_cells_render; [reflexivity|exact Ht].
  - destruct (aiToggleDisabled (live c)) eqn:Ed; [split; auto|].
    unfold aiToggleClick. rewrite Ed.
    apply nine_cells_render; [exact Hl|exact Ht].
  - unfold timers_in_range in Hti.
    destruct (timers c) as [|[r move] pending] eqn:Et;
      [split; [exact Hl|rewrite Et; exact Ht]|].
    apply Forall_cons in Ht as [Hr Hp]. apply Forall_cons in Hti as [Hm _].
    simpl in Hr, Hm.
    destruct (makeMove r move (live c)) as [s'|] eqn:E; [|split; auto].
    apply nine_cells_render; [|exact Hp].
    apply makeMove_board in E as (_ & _ & Hb & _).
    rewrite Hb, arr_length_placed_in; [exact Hr|exact Hm].
Qed.

Lemma reachable_in_range_nine_cells c :
  reachable_by in_range c -> nine_cells c.
Proof.
  induction 1 as [|c e pick Hc IH He]; [split; [reflexivity|constructor]|].
  apply nine_cells_exec; [exact IH| |exact He].
  eapply reachable_by_timers_in_range. exact Hc.
Qed.

Lemma keeps_marks_placeMark s idx : keeps_marks s (placeMark s idx).
Proof. intros k Hk Ht. apply placeMark_keeps_cells; assumption. Qed.

Lemma keeps_marks_continues c e pick :
  continues c e -> keeps_marks (live c) (live (exec c e pick)).
Proof.
  intros He. destruct e; simpl in *; try contradiction.
  - pose proof (keeps_marks_placeMark (live c) idx) as H.
    unfold placeMark in H. destruct (makeMove _ _ _); exact H.
  - unfold aiToggleClick.
    destruct (aiToggleDisabled (live c)); intros k _ _; reflexivity.
  - unfold fresh_timer in He.
    destruct (timers c) as [|[r move] pending]; [intros k _ _; reflexivity|].
    subst r. pose proof (keeps_marks_placeMark (live c) move) as H.
    unfold placeMark in H. destruct (makeMove _ _ _); exact H.
Qed.

(** C8, as the code has it.  In every state reachable by events whose
    clicks name indices in [0,8] (delayed computer moves included) the
    board has exactly nine elements; and a click on any integer index, a
    click on the AI button, and a computer move that runs while the render
    that scheduled it is still the live state leave every mark in place. *)
Theorem board_length_and_marks (c c' : Config) (e : Event) (pick : nat) :
  (reachable_by in_range c -> arr_length (board (live c)) = 9)
  /\ (continues c' e -> keeps_marks (live c') (live (exec c' e pick))).
Proof.
  split.
  - intros H. apply (reachable_in_range_nine_cells c H).
  - apply keeps_marks_continues.
Qed.

Lemma board_length_and_marks_witness :
  let c := run initialConfig [(ToggleAI, 0%nat); (Click 4, 0%nat); (Fire, 0%nat)] in
  arr_length (board (live c)) = 9
  /\ keeps_marks (live c) (live (exec c (Click 9) 0)).
Proof.
  cbv zeta.
  set (c := run initialConfig [(ToggleAI, 0%nat); (Click 4, 0%nat); (Fire, 0%nat)]).
  destruct (board_length_and_marks c c (Click 9) 0) as [Hlen Hkeep].
  split; [|exact (Hkeep I)].
  apply Hlen. apply reachable_by_run; [constructor|].
  repeat constructor; simpl; lia.
Defined.

(** C8, as stated, fails: a click on index 9 in the initial state is an
    operation with an arbitrary integer index, and the board it leaves has
    ten elements. *)
Lemma board_grows_past_nine :
  reachable (run initialConfig [(Click 9, 0%nat)])
  /\ arr_length (board (live (run initialConfig [(Click 9, 0%nat)]))) = 10.
Proof. split; [apply reachable_run|reflexivity]. Qed.

(** ** The timer runs the [makeMove] of the render that scheduled it *)

(** C5 on the code.  AI mode on, X clicks cell 0, the effect schedules the
    computer's move on cell 1, the user presses "Reset All" before the
    timer fires.  At that moment the live state is the initial one (AI mode
    off, turn X, empty board) and the timer is still pending; when it
    fires, its checks pass on the values of the old render and the live
    board becomes X, O, empty... with AI mode off.  In the second trace the
    user plays O on 5 and X on 1 while the timer for cell 1 is pending; the
    timer then replaces the X in cell 1 by O and wipes cell 5. *)
Lemma stale_timer_runs_unchecked :
  let c := run initialConfig
             [(ToggleAI, 0%nat); (Click 0, 0%nat); (ResetAll, 0%nat)] in
  let d := run initialConfig
             [(ToggleAI, 0%nat); (Click 0, 0%nat); (Click 5, 0%nat);
              (Click 1, 0%nat)] in
  reachable c
  /\ live c = initialState
  /\ snd <$> timers c = [1]
  /\ aiMode (live (exec c Fire 0)) = false
  /\ current (live (exec c Fire 0)) = X
  /\ arr_get (board (live (exec c Fire 0))) 0 = Some (Some X)
  /\ arr_get (board (live (exec c Fire 0))) 1 = Some (Some O)
  /\ reachable d
  /\ snd <$> timers d = [1; 2]
  /\ arr_get (board (live d)) 1 = Some (Some X)
  /\ arr_get (board (live d)) 5 = Some (Some O)
  /\ arr_get (board (live (exec d Fire 0))) 1 = Some (Some O)
  /\ arr_get (board (live (exec d Fire 0))) 5 = Some None.
Proof.
  cbv zeta.
  split; [apply reachable_run|].
  do 6 (split; [vm_compute; reflexivity|]).
  split; [apply reachable_run|].
  repeat split; vm_compute; reflexivity.
Qed.

(** C10 on the code.  AI mode on; X on 0, the computer on 3, X on 1, the
    computer on 4, X on 8, and the computer's move on cell 2 is scheduled.
    Before it fires the user clicks cell 5: O completes 3-4-5, the result
    is [Won O] and O's score is 1.  The pending timer then installs the
    board of its own render plus O on 2: the stored result is still
    [Won O] while the stored board has no line. *)
Lemma stale_timer_breaks_result :
  let c := run initialConfig
             [(ToggleAI, 0%nat); (Click 0, 2%nat); (Fire, 0%nat);
              (Click 1, 1%nat); (Fire, 0%nat); (Click 8, 0%nat);
              (Click 5, 0%nat)] in
  reachable c
  /\ winner (live c) = Won O
  /\ getWinner (board (live c)) = Some O
  /\ snd <$> timers c = [2]
  /\ reachable (exec c Fire 0)
  /\ winner (live (exec c Fire 0)) = Won O
  /\ score (live (exec c Fire 0)) = mkScore 0 1
  /\ getWinner (board (live (exec c Fire 0))) = None
  /\ arr_get (board (live (exec c Fire 0))) 5 = Some None.
Proof.
  cbv zeta.
  split; [apply reachable_run|].
  do 3 (split; [vm_compute; reflexivity|]).
  split; [constructor; [apply reachable_run|exact I]|].
  repeat split; vm_compute; reflexivity.
Qed.

(** ** Result and board agree while timers fire in time *)

Lemma consistent_makeMove s idx s' :
  wf_state s -> makeMove s idx s = Some s' -> consistent s'.
Proof.
  intros [Hwf Hnone] H.
  pose proof (makeMove_board _ _ _ _ H) as (Ht & Hw & Hb & _).
  specialize (Hnone Hw).
  rewrite makeMove_accepted in H by assumption. cbv zeta in H.
  assert (Hwfn := wf_board_placed (board s) idx (current s) Hwf).
  unfold consistent. rewrite Hb.
  set (newBoard := arr_set (slice (board s)) idx (Some (current s))) in *.
  destruct (getWinner newBoard) as [pw|] eqn:Eg.
  - inversion H; subst; simpl. split; [reflexivity|].
    destruct (firstWinner_Some _ _ _ Eg) as (l & Hin & Hl).
    apply lineWinner_spec in Hl. symmetry.
    eapply new_line_mark; [apply Hwf|exact Hnone|exact Hin|exact Hl].
  - destruct (isBoardFull newBoard) eqn:Ef; inversion H; subst; simpl.
    + split; [|reflexivity]. apply isBoardFull_all_marked; assumption.
    + rewrite Hw. reflexivity.
Qed.

Lemma consistent_exec c e pick :
  wf_config c -> consistent (live c) -> timely c e ->
  consistent (live (exec c e pick)).
Proof.
  intros [Hwf _] Hc He. destruct e; simpl in *.
  - destruct (makeMove (live c) idx (live c)) as [s'|] eqn:E; [|exact Hc].
    eapply consistent_makeMove; eauto.
  - reflexivity.
  - reflexivity.
  - unfold aiToggleClick. destruct (aiToggleDisabled (live c)); exact Hc.
  - unfold fresh_timer in He.
    destruct (timers c) as [|[r move] pending]; [exact Hc|]. subst r.
    destruct (makeMove (live c) move (live c)) as [s'|] eqn:E; [|exact Hc].
    eapply consistent_makeMove; eauto.
Qed.

(** X1.  While every computer move fires before anything else happens (clicks
    may name any integer index), the stored result agrees with the stored
    board: no result means no line; [Won m] means [getWinner] yields [m]
    and [m] placed last; [Draw] means nine marks and no line. *)
Theorem result_consistent_timely (c : Config) :
  reachable_by timely c -> consistent (live c).
Proof.
  induction 1 as [|c e pick Hc IH He]; [reflexivity|].
  apply consistent_exec; [|exact IH|exact He].
  eapply reachable_by_wf. exact Hc.
Qed.

Lemma result_consistent_timely_witness :
  consistent
    (live (run initialConfig
             [(Click 0, 0%nat); (Click 3, 0%nat); (Click 1, 0%nat);
              (Click 4, 0%nat); (Click 2, 0%nat)])).
Proof.
  apply result_consistent_timely. apply reachable_by_run; [constructor|].
  repeat constructor.
Defined.

(** ** What [getWinner] reads and returns *)

Lemma firstWinner_ext b b' ls :
  (forall l, l ∈ ls -> lineWinner b' l = lineWinner b l) ->
  firstWinner b' ls = firstWinner b ls.
Proof.
  induction ls as [|l ls IH]; intros H; simpl; [reflexivity|].
  rewrite (H l) by left. rewrite IH; [reflexivity|].
  intros l' Hin. apply H. right. exact Hin.
Qed.

Lemma lineWinner_cells b b' l :
  l ∈ lines -> (forall k, 0 <= k < 9 -> arr_get b' k = arr_get b k) ->
  lineWinner b' l = lineWinner b l.
Proof.
  destruct l as [[x y] z]. intros Hin H.
  destruct (lines_in_range _ _ _ Hin) as (Hx & Hy & Hz).
  unfold lineWinner. rewrite (H x Hx), (H y Hy), (H z Hz). reflexivity.
Qed.

(** X2.  [getWinner] yields a mark only when one of the eight triples
    (0,1,2), (3,4,5), (6,7,8), (0,3,6), (1,4,7), (2,5,8), (0,4,8), (2,4,6)
    holds that mark three times, yields some mark whenever one of them is
    complete, yields [null] exactly when none is, and looks at nothing but
    the cells 0..8: two arrays that agree there (of whatever lengths, with
    whatever other properties) get the same answer. *)
Theorem getWinner_characterised (b : JSArray) :
  let eight := [ (0, 1, 2); (3, 4, 5); (6, 7, 8);
                 (0, 3, 6); (1, 4, 7); (2, 5, 8);
                 (0, 4, 8); (2, 4, 6) ] in
  (forall m, getWinner b = Some m -> exists l, l ∈ eight /\ holds3 b l m)
  /\ (forall l m, l ∈ eight -> holds3 b l m ->
        exists m', getWinner b = Some m')
  /\ (getWinner b = None
      <-> ~ exists l m, l ∈ eight /\ holds3 b l m)
  /\ (forall b', (forall k, 0 <= k < 9 -> arr_get b' k = arr_get b k) ->
        getWinner b' = getWinner b).
Proof.
  cbv zeta.
  change [ (0, 1, 2); (3, 4, 5); (6, 7, 8); (0, 3, 6); (1, 4, 7);
           (2, 5, 8); (0, 4, 8); (2, 4, 6) ] with lines.
  change (exists l m, l ∈ lines /\ holds3 b l m) with (has_line b).
  split; [|split; [|split]].
  - intros m H. destruct (firstWinner_Some _ _ _ H) as (l & Hin & Hl).
    exists l. split; [exact Hin|]. apply lineWinner_spec. exact Hl.
  - intros l m Hin H3.
    assert (Hh : has_line b) by (exists l, m; auto).
    apply has_line_getWinner in Hh.
    destruct (getWinner b) as [m'|]; [eauto|congruence].
  - rewrite has_line_getWinner. destruct (getWinner b); split; try tauto;
      try congruence. intros H. exfalso. apply H. discriminate.
  - intros b' H. apply firstWinner_ext. intros l Hin.
    apply lineWinner_cells; assumption.
Qed.

(** ** The list of open cells *)

Lemma StronglySorted_seqZ m n : StronglySorted Z.lt (seqZ m n).
Proof.
  destruct (decide (n <= 0)) as [Hn|Hn]; [rewrite seqZ_nil by lia; constructor|].
  rewrite <- (Z2Nat.id n) by lia. generalize (Z.to_nat n) as k. clear n Hn.
  intros k. revert m. induction k as [|k IH]; intros m.
  - rewrite seqZ_nil by lia. constructor.
  - rewrite seqZ_cons by lia. constructor.
    + replace (Z.pred (Z.of_nat (S k))) with (Z.of_nat k) by lia. apply IH.
    + apply Forall_forall. intros x Hx. apply elem_of_seqZ in Hx. lia.
Qed.

Lemma StronglySorted_filter {A} (R : relation A) (P : A -> Prop)
    `{forall x, Decision (P x)} (l : list A) :
  StronglySorted R l -> StronglySorted R (filter P l).
Proof.
  induction 1 as [|x l Hl IH Hx]; [constructor|].
  rewrite filter_cons. destruct (decide (P x)); [|exact IH].
  constructor; [exact IH|].
  apply Forall_forall. intros y Hy. apply list_elem_of_filter in Hy as [_ Hy].
  rewrite Forall_forall in Hx. apply Hx. exact Hy.
Qed.

Lemma elem_of_getAvailableMoves b k :
  k ∈ getAvailableMoves b
  <-> 0 <= k < arr_length b /\ arr_get b k = Some None.
Proof.
  unfold getAvailableMoves, indices.
  rewrite list_elem_of_filter, elem_of_seqZ. split; intros [? ?]; split;
    solve [assumption|lia].
Qed.

Lemma getAvailableMoves_nil b :
  getAvailableMoves b = [] <-> isBoardFull b = true.
Proof.
  rewrite isBoardFull_spec. split.
  - intros H k Hk E.
    assert (Hin : k ∈ getAvailableMoves b)
      by (apply elem_of_getAvailableMoves; auto).
    rewrite H in Hin. inversion Hin.
  - intros H. destruct (getAvailableMoves b) as [|k l] eqn:E; [reflexivity|].
    assert (Hin : k ∈ getAvailableMoves b) by (rewrite E; left).
    apply elem_of_getAvailableMoves in Hin as [Hk Hn].
    destruct (H k Hk Hn).
Qed.

(** X3.  [getAvailableMoves] lists exactly the indices below [length] whose
    element is [null] (marks and holes are left out), each once, in
    ascending order; it is empty exactly when [isBoardFull] holds. *)
Theorem getAvailableMoves_spec (b : JSArray) :
  (forall k, k ∈ getAvailableMoves b
             <-> 0 <= k < arr_length b /\ arr_get b k = Some None)
  /\ NoDup (getAvailableMoves b)
  /\ StronglySorted Z.lt (getAvailableMoves b)
  /\ (getAvailableMoves b = [] <-> isBoardFull b = true).
Proof.
  split; [apply elem_of_getAvailableMoves|].
  split; [apply NoDup_filter, NoDup_seqZ|].
  split; [apply StronglySorted_filter, StronglySorted_seqZ|].
  apply getAvailableMoves_nil.
Qed.

(** ** What [aiMove] schedules *)

Lemma aiMove_Some r pick t :
  aiMove r pick = Some t ->
  aiMode r = true /\ winner r = NoResult /\ current r = O
  /\ t.1 = r /\ t.2 ∈ getAvailableMoves (board r).
Proof.
  unfold aiMove.
  destruct (aiMode r); [|discriminate].
  destruct (winner r); try discriminate.
  destruct (current r); [discriminate|]. simpl.
  destruct (0 <? _)%nat; [|discriminate].
  destruct (_ !! _) as [m|] eqn:E; simpl; [|discriminate].
  intros [= <-]. simpl. repeat split; try reflexivity.
  eapply list_elem_of_lookup_2. exact E.
Qed.

Lemma aiMove_pick r m :
  aiMode r = true -> winner r = NoResult -> current r = O ->
  m ∈ getAvailableMoves (board r) ->
  exists pick, aiMove r pick = Some (r, m).
Proof.
  intros Ha Hw Hc Hin. apply list_elem_of_lookup_1 in Hin as [i Hi].
  pose proof (lookup_lt_Some _ _ _ Hi) as Hlt.
  exists i. unfold aiMove. rewrite Ha, Hw, Hc. simpl.
  destruct (0 <? length (getAvailableMoves (board r)))%nat eqn:E.
  - rewrite Nat.mod_small by exact Hlt. rewrite Hi. reflexivity.
  - apply Nat.ltb_ge in E. lia.
Qed.

Lemma aiMove_is_Some r pick :
  is_Some (aiMove r pick)
  <-> aiMode r = true /\ winner r = NoResult /\ current r = O
      /\ isBoardFull (board r) = false.
Proof.
  split.
  - intros [t Ht]. destruct (aiMove_Some _ _ _ Ht) as (Ha & Hw & Hc & _ & Hin).
    repeat split; try assumption.
    destruct (isBoardFull (board r)) eqn:E; [|reflexivity].
    apply getAvailableMoves_nil in E. rewrite E in Hin. inversion Hin.
  - intros (Ha & Hw & Hc & Hf). unfold aiMove. rewrite Ha, Hw, Hc. simpl.
    destruct (getAvailableMoves (board r)) as [|k l] eqn:E.
    { apply getAvailableMoves_nil in E. congruence. }
    assert (Hlt : (pick mod length (k :: l) < length (k :: l))%nat)
      by (apply Nat.mod_upper_bound; simpl; lia).
    destruct (lookup_lt_is_Some_2 _ _ Hlt) as [m Hm].
    change (0 <? length (k :: l))%nat with true. cbv iota.
    rewrite Hm. simpl. eauto.
Qed.

(** X4.  [aiMove] schedules a timer exactly when AI mode is on, the round has
    no result, the turn is O's and some cell is [null]; the timer it
    schedules belongs to the render that ran it and names a [null] cell of
    that render's board; and every [null] cell is the choice of some value
    of [Math.random]. *)
Theorem aiMove_spec (r : State) :
  (forall pick,
     is_Some (aiMove r pick)
     <-> aiMode r = true /\ winner r = NoResult /\ current r = O
         /\ isBoardFull (board r) = false)
  /\ (forall pick t, aiMove r pick = Some t ->
        t.1 = r /\ 0 <= t.2 < arr_length (board r)
        /\ arr_get (board r) t.2 = Some None)
  /\ (forall m, aiMode r = true -> winner r = NoResult -> current r = O ->
        0 <= m < arr_length (board r) -> arr_get (board r) m = Some None ->
        exists pick, aiMove r pick = Some (r, m)).
Proof.
  split; [apply aiMove_is_Some|]. split.
  - intros pick t Ht. destruct (aiMove_Some _ _ _ Ht) as (_ & _ & _ & H1 & Hin).
    apply elem_of_getAvailableMoves in Hin. tauto.
  - intros m Ha Hw Hc Hm Hn. apply aiMove_pick; try assumption.
    apply elem_of_getAvailableMoves. auto.
Qed.

(** ** Further invariants of the reachable configurations *)

Lemma no_line_EMPTY l m : l ∈ lines -> ~ holds3 EMPTY_BOARD l m.
Proof.
  intros Hin H3. apply lineWinner_spec in H3.
  assert (Hn : getWinner EMPTY_BOARD = None) by reflexivity.
  unfold getWinner in Hn. rewrite firstWinner_None in Hn.
  rewrite (Hn l Hin) in H3. discriminate.
Qed.

Lemma single_mark_lines_makeMove r idx s s' :
  wf_state r -> makeMove r idx s = Some s' -> single_mark_lines (board s').
Proof.
  intros [Hwf Hnone] H.
  apply makeMove_board in H as (_ & Hw & Hb & _). rewrite Hb.
  intros l l' m m' Hl Hl' H3 H3'.
  assert (Hlen : 9 <= arr_length (board r)) by apply Hwf.
  rewrite (new_line_mark _ _ _ _ _ Hlen (Hnone Hw) Hl H3).
  rewrite (new_line_mark _ _ _ _ _ Hlen (Hnone Hw) Hl' H3').
  reflexivity.
Qed.

Lemma open_round_makeMove r idx s s' :
  open_round s -> makeMove r idx s = Some s' -> open_round s'.
Proof.
  intros Ho H.
  pose proof (makeMove_board _ _ _ _ H) as (Ht & Hw & Hb & _).
  rewrite makeMove_accepted in H by assumption. cbv zeta in H.
  unfold open_round. rewrite Hb.
  set (newBoard := arr_set (slice (board r)) idx (Some (current r))) in *.
  destruct (getWinner newBoard); [|destruct (isBoardFull newBoard) eqn:Ef];
    inversion H; subst; simpl; try discriminate. auto.
Qed.

Lemma steady_render s pick pending :
  open_round s -> single_mark_lines (board s) ->
  Forall timer_checked pending -> steady (render s pick pending).
Proof.
  intros Ho Hs Hp. split; [exact Ho|]. split; [exact Hs|]. simpl.
  apply Forall_app. split; [exact Hp|].
  destruct (aiMove s pick) as [t|] eqn:E; simpl; constructor; [|constructor].
  destruct (aiMove_Some _ _ _ E) as (Ha & Hw & Hc & Ht & Hin).
  apply elem_of_getAvailableMoves in Hin as [_ Hin].
  unfold timer_checked. rewrite Ht. auto.
Qed.

Lemma steady_exec c e pick :
  wf_config c -> steady c -> steady (exec c e pick).
Proof.
  intros [Hwl Hwt] (Ho & Hs & Ht). destruct e; simpl.
  - destruct (makeMove (live c) idx (live c)) as [s'|] eqn:E;
      [|split; [|split]; assumption].
    apply steady_render; [| |exact Ht].
    + eapply open_round_makeMove; eauto.
    + eapply single_mark_lines_makeMove; eauto.
  - apply steady_render; [intros _; reflexivity| |exact Ht].
    intros l l' m m' Hl _ H3 _. destruct (no_line_EMPTY l m Hl H3).
  - apply steady_render; [intros _; reflexivity| |exact Ht].
    intros l l' m m' Hl _ H3 _. destruct (no_line_EMPTY l m Hl H3).
  - unfold aiToggleClick.
    destruct (aiToggleDisabled (live c)); [split; [|split]; assumption|].
    apply steady_render; assumption.
  - destruct (timers c) as [|[r move] pending] eqn:Et.
    { split; [exact Ho|]. split; [exact Hs|]. rewrite Et. exact Ht. }
    apply Forall_cons in Ht as [_ Hp]. apply Forall_cons in Hwt as [Hr _].
    simpl in Hr.
    destruct (makeMove r move (live c)) as [s'|] eqn:E;
      [|split; [|split]; assumption].
    apply steady_render; [| |exact Hp].
    + eapply open_round_makeMove; eauto.
    + eapply single_mark_lines_makeMove; eauto.
Qed.

Lemma reachable_by_steady allowed c : reachable_by allowed c -> steady c.
Proof.
  induction 1 as [|c e pick Hc IH _].
  - split; [intros _; reflexivity|]. split; [|constructor].
    intros l l' m m' Hl _ H3 _. destruct (no_line_EMPTY l m Hl H3).
  - apply steady_exec; [|exact IH]. eapply reachable_by_wf. exact Hc.
Qed.

(** X5.  In every reachable state (clicks on any integer index and timers that
    fire late included) the board has at least nine elements, none of the
    cells 0..8 is a hole, nothing outside them is [null]; and while the
    round has no result the board has no complete line and still has an
    open cell. *)
Theorem reachable_board_shape (c : Config) :
  reachable c ->
  9 <= arr_length (board (live c))
  /\ (forall k, 0 <= k < 9 -> is_Some (arr_get (board (live c)) k))
  /\ (forall k, ~ 0 <= k < 9 -> arr_get (board (live c)) k <> Some None)
  /\ (winner (live c) = NoResult ->
        getWinner (board (live c)) = None
        /\ isBoardFull (board (live c)) = false
        /\ exists k, 0 <= k < 9 /\ arr_get (board (live c)) k = Some None).
Proof.
  intros Hr.
  destruct (reachable_by_wf _ _ Hr) as [[Hwf Hnone] _].
  destruct (reachable_by_steady _ _ Hr) as (Ho & _ & _).
  destruct Hwf as (Hlen & Hin & Hout).
  split; [exact Hlen|]. split; [exact Hin|]. split; [exact Hout|].
  intros Hw. split; [auto|]. split; [auto|].
  destruct (getAvailableMoves (board (live c))) as [|k l] eqn:E.
  { apply getAvailableMoves_nil in E. rewrite (Ho Hw) in E. discriminate. }
  assert (Hk : k ∈ getAvailableMoves (board (live c))) by (rewrite E; left).
  apply elem_of_getAvailableMoves in Hk as [Hk Hn].
  exists k. split; [|exact Hn].
  destruct (decide (0 <= k < 9)) as [H9|H9]; [exact H9|].
  destruct (Hout k H9 Hn).
Qed.

Lemma reachable_board_shape_witness :
  let c := run initialConfig [(Click 9, 0%nat); (Click (-1), 0%nat)] in
  9 <= arr_length (board (live c))
  /\ getWinner (board (live c)) = None
  /\ isBoardFull (board (live c)) = false.
Proof.
  cbv zeta.
  destruct (reachable_board_shape _
              (reachable_run [(Click 9, 0%nat); (Click (-1), 0%nat)]))
    as (Hlen & _ & _ & Hopen).
  split; [exact Hlen|].
  destruct (Hopen eq_refl) as (Hg & Hf & _). split; [exact Hg|exact Hf].
Defined.

(** X6.  In every reachable state the complete lines of the board all carry one
    and the same mark: the board never shows three in a row for both
    players. *)
Theorem lines_never_mixed (c : Config) (l l' : Z * Z * Z) (m m' : Player) :
  reachable c -> l ∈ lines -> l' ∈ lines ->
  holds3 (board (live c)) l m -> holds3 (board (live c)) l' m' -> m = m'.
Proof.
  intros Hr. destruct (reachable_by_steady _ _ Hr) as (_ & Hs & _).
  apply Hs.
Qed.

Lemma lines_never_mixed_witness :
  let c := run initialConfig
             [(Click 0, 0%nat); (Click 3, 0%nat); (Click 1, 0%nat);
              (Click 4, 0%nat); (Click 2, 0%nat)] in
  holds3 (board (live c)) (0, 1, 2) X /\ X = X.
Proof.
  cbv zeta.
  set (tr := [(Click 0, 0%nat); (Click 3, 0%nat); (Click 1, 0%nat);
              (Click 4, 0%nat); (Click 2, 0%nat)]).
  assert (H3 : holds3 (board (live (run initialConfig tr))) (0, 1, 2) X)
    by (vm_compute; auto).
  assert (Hin : (0, 1, 2) ∈ lines) by left.
  split; [exact H3|].
  exact (lines_never_mixed _ _ _ _ _ (reachable_run tr) Hin Hin H3 H3).
Defined.

(** X7.  Every pending timer of a reachable configuration was scheduled by a
    render with AI mode on, no result and O to move, for a cell that was
    [null] in that render; so whenever it fires, and whatever the live
    state is by then, its [makeMove] does not take the early return: it
    installs the board of its own render with O written into its cell. *)
Theorem pending_timer_places_O (c : Config) (t : Timer) (s : State) :
  reachable c -> t ∈ timers c ->
  aiMode t.1 = true /\ winner t.1 = NoResult /\ current t.1 = O
  /\ arr_get (board t.1) t.2 = Some None
  /\ exists s', makeMove t.1 t.2 s = Some s'
       /\ board s' = arr_set (slice (board t.1)) t.2 (Some O)
       /\ arr_get (board s') t.2 = Some (Some O).
Proof.
  intros Hr Hin. destruct (reachable_by_steady _ _ Hr) as (_ & _ & Ht).
  rewrite Forall_forall in Ht. destruct (Ht t Hin) as (Ha & Hw & Hc & Hn).
  repeat (split; [assumption|]).
  assert (Htr : truthy (arr_get (board t.1) t.2) = false)
    by (rewrite Hn; reflexivity).
  destruct (makeMove t.1 t.2 s) as [s'|] eqn:E.
  - exists s'. split; [reflexivity|].
    apply makeMove_board in E as (_ & _ & Hb & _). rewrite Hc in Hb.
    split; [exact Hb|]. rewrite Hb, arr_get_placed.
    case_decide; [reflexivity|congruence].
  - rewrite makeMove_accepted in E by assumption. cbv zeta in E.
    destruct (getWinner _); [|destruct (isBoardFull _)]; discriminate.
Qed.

Lemma pending_timer_places_O_witness :
  let c := run initialConfig
             [(ToggleAI, 0%nat); (Click 0, 0%nat); (ResetAll, 0%nat)] in
  exists t s', t ∈ timers c /\ makeMove t.1 t.2 (live c) = Some s'
               /\ arr_get (board s') t.2 = Some (Some O).
Proof.
  cbv zeta.
  set (tr := [(ToggleAI, 0%nat); (Click 0, 0%nat); (ResetAll, 0%nat)]).
  destruct (timers (run initialConfig tr)) as [|t ts] eqn:Et;
    [vm_compute in Et; discriminate|].
  assert (Hin : t ∈ timers (run initialConfig tr)) by (rewrite Et; left).
  destruct (pending_timer_places_O _ t (live (run initialConfig tr))
              (reachable_run tr) Hin) as (_ & _ & _ & _ & s' & Hm & _ & Hg).
  exists t, s'. rewrite <- Et. auto.
Defined.

(** X8.  In a reachable state the test [open.length > 0] of [aiMove] never
    fails: the effect schedules a computer move exactly when AI mode is
    on, the round has no result and it is O's turn. *)
Theorem aiMove_reachable (c : Config) (pick : nat) :
  reachable c ->
  (is_Some (aiMove (live c) pick)
   <-> aiMode (live c) = true /\ winner (live c) = NoResult
       /\ current (live c) = O).
Proof.
  intros Hr. destruct (reachable_by_steady _ _ Hr) as (Ho & _ & _).
  rewrite aiMove_is_Some. split; [tauto|].
  intros (Ha & Hw & Hc). auto.
Qed.

Lemma aiMove_reachable_witness :
  is_Some (aiMove (live (run initialConfig
                           [(ToggleAI, 0%nat); (Click 4, 0%nat)])) 3).
Proof.
  apply aiMove_reachable; [apply reachable_run|].
  vm_compute. auto.
Defined.

(** ** How the score moves *)

Lemma makeMove_score_step r idx s s' :
  makeMove r idx s = Some s' ->
  score s' = score s
  \/ exists p, score s' = bump p (score s) /\ winner s' = Won p.
Proof.
  unfold makeMove. destruct (_ || _); [discriminate|].
  destruct (getWinner _) as [p|]; [|destruct (isBoardFull _)];
    intros [= <-]; simpl; eauto.
Qed.

(** X9.  No event other than "Reset All" lowers a score or touches both: after
    the event the score is either what it was, or one of the two counters
    has grown by exactly one and the stored result is that player's win. *)
Theorem score_step (c : Config) (e : Event) (pick : nat) :
  e <> ResetAll ->
  score (live (exec c e pick)) = score (live c)
  \/ exists p, score (live (exec c e pick)) = bump p (score (live c))
               /\ winner (live (exec c e pick)) = Won p.
Proof.
  intros Hne. destruct e; simpl; try congruence.
  - destruct (makeMove (live c) idx (live c)) as [s'|] eqn:E; [|auto].
    apply (makeMove_score_step _ _ _ _ E).
  - auto.
  - unfold aiToggleClick. destruct (aiToggleDisabled (live c)); auto.
  - destruct (timers c) as [|[r move] pending]; [auto|].
    destruct (makeMove r move (live c)) as [s'|] eqn:E; [|auto].
    apply (makeMove_score_step _ _ _ _ E).
Qed.

Lemma score_step_witness :
  let c := run initialConfig
             [(Click 0, 0%nat); (Click 3, 0%nat); (Click 1, 0%nat);
              (Click 4, 0%nat)] in
  score (live (exec c (Click 2) 0)) = score (live c)
  \/ exists p, score (live (exec c (Click 2) 0)) = bump p (score (live c))
               /\ winner (live (exec c (Click 2) 0)) = Won p.
Proof. cbv zeta. apply score_step. discriminate. Defined.

(** ** Alternation of the marks *)

Lemma length_filter_ext (P Q : Z -> Prop)
    `{forall k, Decision (P k)} `{forall k, Decision (Q k)} (l : list Z) :
  (forall k, k ∈ l -> (Q k <-> P k)) ->
  length (filter Q l) = length (filter P l).
Proof.
  induction l as [|x l IH]; intros Hl; [reflexivity|].
  rewrite !filter_cons.
  assert (Hx : Q x <-> P x) by (apply Hl; left).
  assert (IH' : length (filter Q l) = length (filter P l))
    by (apply IH; intros k Hk; apply Hl; right; exact Hk).
  destruct (decide (Q x)), (decide (P x)); simpl; try tauto; lia.
Qed.

Lemma length_filter_point (P Q : Z -> Prop)
    `{forall k, Decision (P k)} `{forall k, Decision (Q k)}
    (l : list Z) (idx : Z) :
  NoDup l -> idx ∈ l -> (forall k, k ∈ l -> k <> idx -> (Q k <-> P k)) ->
  ~ P idx -> Q idx ->
  length (filter Q l) = S (length (filter P l)).
Proof.
  intros Hnd Hin Hother HP HQ.
  induction l as [|x l IH]; [inversion Hin|].
  apply NoDup_cons in Hnd as [Hx Hnd]. rewrite !filter_cons.
  assert (Hother' : forall k, k ∈ l -> k <> idx -> (Q k <-> P k))
    by (intros k Hk; apply Hother; right; exact Hk).
  destruct (decide (x = idx)) as [->|Hne].
  - destruct (decide (Q idx)); [|tauto]. destruct (decide (P idx)); [tauto|].
    simpl. f_equal. apply length_filter_ext.
    intros k Hk. apply Hother'; [exact Hk|]. intros ->. tauto.
  - assert (Hin' : idx ∈ l).
    { apply elem_of_cons in Hin as [->|Hin]; [congruence|exact Hin]. }
    specialize (IH Hnd Hin' Hother').
    assert (Hx' : Q x <-> P x) by (apply Hother; [left|exact Hne]).
    destruct (decide (Q x)), (decide (P x)); simpl; try tauto; lia.
Qed.

Lemma count_marks_placed b idx p q :
  0 <= idx < 9 -> 9 <= arr_length b -> truthy (arr_get b idx) = false ->
  count_marks (arr_set (slice b) idx (Some p)) q
  = if decide (q = p) then S (count_marks b q) else count_marks b q.
Proof.
  intros Hidx Hlen Hf. unfold count_marks.
  destruct (decide (q = p)) as [->|Hne].
  - apply (length_filter_point _ _ _ idx).
    + apply NoDup_seqZ.
    + apply elem_of_seqZ. lia.
    + intros k Hk Hki. apply elem_of_seqZ in Hk. rewrite arr_get_placed.
      case_decide; [congruence|]. case_decide; [reflexivity|lia].
    + intros E. rewrite E in Hf. discriminate.
    + rewrite arr_get_placed. case_decide; [reflexivity|congruence].
  - apply length_filter_ext. intros k Hk. apply elem_of_seqZ in Hk.
    rewrite arr_get_placed.
    case_decide; [subst k|case_decide; [reflexivity|lia]].
    split; [congruence|]. intros E. rewrite E in Hf. discriminate.
Qed.

Lemma turn_balance_makeMove s idx s' :
  wf_board (board s) -> 0 <= idx < 9 -> turn_balance s ->
  makeMove s idx s = Some s' -> turn_balance s'.
Proof.
  intros Hwf Hidx Hbal H.
  pose proof (makeMove_board _ _ _ _ H) as (Ht & Hw & _).
  assert (Hlen : 9 <= arr_length (board s)) by apply Hwf.
  pose proof (fun q => count_marks_placed (board s) idx (current s) q
                         Hidx Hlen Ht) as Hcount.
  rewrite makeMove_accepted in H by assumption. cbv zeta in H.
  unfold turn_balance in *. rewrite Hw in Hbal.
  set (newBoard := arr_set (slice (board s)) idx (Some (current s))) in *.
  assert (Hgoal :
    forall w p, (w = NoResult -> p = other (current s)) ->
                (w <> NoResult -> p = current s) ->
      match w with
      | NoResult =>
          if decide (p = startingPlayer s)
          then count_marks newBoard (startingPlayer s)
               = count_marks newBoard (other (startingPlayer s))
          else count_marks newBoard (startingPlayer s)
               = S (count_marks newBoard (other (startingPlayer s)))
      | _ =>
          if decide (p = startingPlayer s)
          then count_marks newBoard (startingPlayer s)
               = S (count_marks newBoard (other (startingPlayer s)))
          else count_marks newBoard (startingPlayer s)
               = count_marks newBoard (other (startingPlayer s))
      end).
  { intros w p H1 H2. rewrite !Hcount.
    destruct w; [rewrite (H1 eq_refl)|rewrite H2 by discriminate
                |rewrite H2 by discriminate];
      destruct (current s), (startingPlayer s); simpl in *;
      repeat case_decide; try congruence; lia. }
  destruct (getWinner newBoard) as [pw|];
    [|destruct (isBoardFull newBoard)]; inversion H; subst s'; simpl.
  - apply (Hgoal (Won pw) (current s)); [discriminate|reflexivity].
  - apply (Hgoal Draw (current s)); [discriminate|reflexivity].
  - rewrite Hw.
    apply (Hgoal NoResult (other (current s))); [reflexivity|congruence].
Qed.

Lemma count_marks_EMPTY p : count_marks EMPTY_BOARD p = 0%nat.
Proof. destruct p; reflexivity. Qed.

Lemma turn_balance_fresh s p :
  board s = EMPTY_BOARD -> winner s = NoResult -> current s = p ->
  startingPlayer s = p -> turn_balance s.
Proof.
  intros Hb Hw Hc Hs. unfold turn_balance. rewrite Hb, Hw, Hc, Hs.
  rewrite !count_marks_EMPTY. case_decide; [reflexivity|congruence].
Qed.

Lemma reachable_by_mono (A B : Config -> Event -> Prop) c :
  (forall c e, A c e -> B c e) -> reachable_by A c -> reachable_by B c.
Proof.
  intros HAB. induction 1 as [|c e pick _ IH He]; [constructor|].
  constructor; [exact IH|apply HAB; exact He].
Qed.

Lemma turn_balance_exec c e pick :
  wf_config c -> nine_cells c -> timers_in_range c -> orderly c e ->
  turn_balance (live c) -> turn_balance (live (exec c e pick)).
Proof.
  intros [[Hwf _] _] [Hnine Hnt] Hti [Htime Hrange] Hbal.
  destruct e; simpl in *.
  - destruct (makeMove (live c) idx (live c)) as [s'|] eqn:E; [|exact Hbal].
    eapply turn_balance_makeMove; [exact Hwf| |exact Hbal|exact E]. lia.
  - eapply turn_balance_fresh; reflexivity.
  - eapply turn_balance_fresh; reflexivity.
  - unfold aiToggleClick. destruct (aiToggleDisabled (live c)); exact Hbal.
  - unfold fresh_timer in Htime. unfold timers_in_range in Hti.
    destruct (timers c) as [|[r move] pending]; [exact Hbal|]. subst r.
    apply Forall_cons in Hti as [Hm _]. simpl in Hm.
    destruct (makeMove (live c) move (live c)) as [s'|] eqn:E; [|exact Hbal].
    eapply turn_balance_makeMove; [exact Hwf| |exact Hbal|exact E]. lia.
Qed.

(** X10.  In a game played through the nine buttons in which every computer move
    fires in time, the marks alternate from the starting player: while the
    round is open the player to move has as many marks as the opponent if
    it opened the round and one fewer otherwise.  Hence the numbers of X
    and O on the board never differ by more than one, and on a board
    without marks the turn belongs to the starting player. *)
Theorem marks_alternate (c : Config) :
  reachable_by orderly c ->
  turn_balance (live c)
  /\ (count_marks (board (live c)) X <= S (count_marks (board (live c)) O))%nat
  /\ (count_marks (board (live c)) O <= S (count_marks (board (live c)) X))%nat
  /\ (winner (live c) = NoResult ->
      count_marks (board (live c)) X = 0%nat ->
      count_marks (board (live c)) O = 0%nat ->
      current (live c) = startingPlayer (live c)).
Proof.
  intros Hr.
  assert (Hbal : turn_balance (live c)).
  { induction Hr as [|c e pick Hc IH He];
      [eapply turn_balance_fresh; reflexivity|].
    apply turn_balance_exec; try assumption.
    - eapply reachable_by_wf. exact Hc.
    - apply reachable_in_range_nine_cells.
      eapply reachable_by_mono; [|exact Hc]. intros c' e' [_ H]. exact H.
    - eapply reachable_by_timers_in_range. exact Hc. }
  split; [exact Hbal|]. unfold turn_balance in Hbal.
  destruct (winner (live c)), (startingPlayer (live c)) eqn:Es;
    simpl in Hbal; case_decide; repeat split; try lia;
    intros; try congruence; try discriminate; lia.
Qed.

Lemma marks_alternate_witness :
  let c := exec (exec (exec (exec (exec initialConfig
             ToggleAI 0) (Click 4) 0) Fire 0) Restart 0) Fire 0 in
  turn_balance (live c)
  /\ (count_marks (board (live c)) X <= S (count_marks (board (live c)) O))%nat.
Proof.
  cbv zeta.
  set (c1 := exec initialConfig ToggleAI 0).
  set (c2 := exec c1 (Click 4) 0).
  set (c3 := exec c2 Fire 0).
  set (c4 := exec c3 Restart 0).
  assert (A1 : orderly initialConfig ToggleAI) by (split; exact I).
  assert (A2 : orderly c1 (Click 4)) by (split; [exact I|unfold in_range; lia]).
  assert (A3 : orderly c2 Fire) by (split; [vm_compute; reflexivity|exact I]).
  assert (A4 : orderly c3 Restart) by (split; exact I).
  assert (A5 : orderly c4 Fire) by (split; [vm_compute; reflexivity|exact I]).
  pose proof (reach_exec orderly _ _ 0%nat
                (reach_exec orderly _ _ 0%nat
                   (reach_exec orderly _ _ 0%nat
                      (reach_exec orderly _ _ 0%nat
                         (reach_exec orderly _ _ 0%nat
                            (reach_init orderly) A1) A2) A3) A4) A5) as H5.
  destruct (marks_alternate _ H5) as (Hb & Hx & _). split; assumption.
Defined.

(** ** Buttons and status line *)

(** X11.  The button of a cell is disabled exactly when a click on it would be
    ignored by [makeMove]: a disabled button hides a no-op, and a click on
    an enabled button always changes the state. *)
Theorem cellDisabled_iff_ignored (s : State) (i : Z) :
  (cellDisabled s i = true <-> makeMove s i s = None)
  /\ (cellDisabled s i = true <-> placeMark s i = s).
Proof.
  unfold cellDisabled.
  destruct (truthy (arr_get (board s) i)) eqn:Ht.
  - assert (Hn : makeMove s i s = None) by (apply makeMove_rejected; auto).
    unfold placeMark. rewrite Hn. simpl. tauto.
  - destruct (winner s) eqn:Hw; simpl.
    + destruct (placeMark_changes s i Ht Hw) as [_ Hne].
      split; split; try discriminate; [|tauto].
      intros Hn. unfold placeMark in Hne. rewrite Hn in Hne.
      destruct (Hne eq_refl).
    + assert (Hn : makeMove s i s = None)
        by (apply makeMove_rejected; right; congruence).
      unfold placeMark. rewrite Hn. simpl. tauto.
    + assert (Hn : makeMove s i s = None)
        by (apply makeMove_rejected; right; congruence).
      unfold placeMark. rewrite Hn. simpl. tauto.
Qed.

(** X12.  The status line tells the result apart: two states with the same line
    have the same result, and while the round is open also the same player
    to move and, on O's turn, the same AI mode (the suffix " (AI)"). *)
Theorem turnMsg_determines (s s' : State) :
  turnMsg s = turnMsg s' ->
  winner s = winner s'
  /\ (winner s = NoResult ->
      current s = current s' /\ (current s = O -> aiMode s = aiMode s')).
Proof.
  unfold turnMsg.
  destruct (winner s) as [|[]|], (winner s') as [|[]|],
           (current s), (current s'), (aiMode s), (aiMode s');
    simpl; intros H; try discriminate H;
    repeat split; try reflexivity; intros; congruence.
Qed.

Lemma turnMsg_determines_witness :
  winner (placeMark initialState 4) = winner (placeMark initialState 0)
  /\ (winner (placeMark initialState 4) = NoResult ->
      current (placeMark initialState 4) = current (placeMark initialState 0)
      /\ (current (placeMark initialState 4) = O ->
          aiMode (placeMark initialState 4) = aiMode (placeMark initialState 0))).
Proof.
  apply turnMsg_determines. vm_compute. reflexivity.
Defined.

(** X13.  The nine cell buttons carry nine different labels, and the label of
    cell [i] reads "Cell column,row" with column [i mod 3 + 1] and row
    [i / 3 + 1], both between 1 and 3. *)
Theorem cellLabel_distinct (i j : Z) :
  0 <= i <= 8 -> 0 <= j <= 8 ->
  (cellLabel i = cellLabel j -> i = j)
  /\ (exists col row,
        1 <= col <= 3 /\ 1 <= row <= 3 /\ i = 3 * (row - 1) + (col - 1)
        /\ cellLabel i = "Cell " +:+ pretty col +:+ "," +:+ pretty row).
Proof.
  intros Hi Hj. split.
  - cell_cases i; cell_cases j; intros H; try reflexivity;
      vm_compute in H; discriminate H.
  - exists (Z.rem i 3 + 1), (i `div` 3 + 1).
    cell_cases i; vm_compute; repeat split; congruence.
Qed.

Lemma cellLabel_distinct_witness :
  cellLabel 5 = "Cell 3,2" /\ (cellLabel 5 = cellLabel 5 -> 5 = 5).
Proof.
  split; [vm_compute; reflexivity|].
  apply (cellLabel_distinct 5 5); lia.
Defined.

(** ** Repeated restarts *)

(** X14.  Restarting [n] times in a row flips the starting player exactly when
    [n] is odd and never touches score or AI mode; after at least one
    restart the board is empty, the round is open and the turn is the
    starting player's. *)
Theorem restartGame_iter (n : nat) (s : State) :
  startingPlayer (Nat.iter n restartGame s)
    = (if Nat.even n then startingPlayer s
       else match startingPlayer s with X => O | O => X end)
  /\ (startingPlayer (Nat.iter n restartGame s) = startingPlayer s
      <-> Nat.even n = true)
  /\ score (Nat.iter n restartGame s) = score s
  /\ aiMode (Nat.iter n restartGame s) = aiMode s
  /\ ((0 < n)%nat ->
      board (Nat.iter n restartGame s) = EMPTY_BOARD
      /\ winner (Nat.iter n restartGame s) = NoResult
      /\ current (Nat.iter n restartGame s)
         = startingPlayer (Nat.iter n restartGame s)).
Proof.
  induction n as [|n (IHs & _ & IHsc & IHa & _)].
  - simpl. split; [reflexivity|]. split; [tauto|].
    do 2 (split; [reflexivity|]). intros H. lia.
  - rewrite Nat.even_succ, <- Nat.negb_even.
    change (Nat.iter (S n) restartGame s)
      with (restartGame (Nat.iter n restartGame s)).
    generalize dependent (Nat.iter n restartGame s). intros s' IHs IHsc IHa.
    simpl. rewrite IHs, IHsc, IHa.
    destruct (Nat.even n), (startingPlayer s); simpl;
      repeat split; try reflexivity; intros; congruence.
Qed.

(** ** The reply to a human move *)

Lemma makeMove_open r idx s s' :
  makeMove r idx s = Some s' -> winner s = NoResult ->
  winner s' = NoResult -> current s' = other (current r).
Proof.
  intros H Hw Hw'.
  pose proof (makeMove_board _ _ _ _ H) as (Ht & Hwr & _).
  rewrite makeMove_accepted in H by assumption. cbv zeta in H.
  destruct (getWinner _); [|destruct (isBoardFull _)];
    inversion H; subst s'; simpl in *; try discriminate. reflexivity.
Qed.

(** X15.  With AI mode on and X to move in a reachable state, a click that is
    accepted and leaves the round open passes the turn to O and makes the
    effect schedule one computer move, for a cell that is empty on the new
    board, behind the timers already pending; a click that ends the round
    schedules nothing. *)
Theorem human_move_schedules_reply (c : Config) (idx : Z) (pick : nat)
    (s' : State) :
  reachable c -> aiMode (live c) = true -> current (live c) = X ->
  makeMove (live c) idx (live c) = Some s' ->
  live (exec c (Click idx) pick) = s'
  /\ (winner s' = NoResult ->
      current s' = O
      /\ exists m, timers (exec c (Click idx) pick) = timers c ++ [(s', m)]
                   /\ 0 <= m < arr_length (board s')
                   /\ arr_get (board s') m = Some None)
  /\ (winner s' <> NoResult -> timers (exec c (Click idx) pick) = timers c).
Proof.
  intros Hr Ha Hc Hm.
  assert (Hr' : reachable (exec c (Click idx) pick))
    by (constructor; [exact Hr|exact I]).
  pose proof (makeMove_board _ _ _ _ Hm) as (_ & Hw & _ & Ha' & _).
  simpl in *. rewrite Hm in *. simpl in *.
  split; [reflexivity|]. split.
  - intros Hw'.
    assert (Hc' : current s' = O).
    { rewrite (makeMove_open _ _ _ _ Hm Hw Hw'), Hc. reflexivity. }
    split; [exact Hc'|].
    destruct (reachable_by_steady _ _ Hr') as (Ho & _ & _).
    simpl in Ho.
    destruct (proj2 (aiMove_is_Some s' pick)) as [t Ht].
    { rewrite Ha', Ha. auto. }
    rewrite Ht. simpl.
    destruct (aiMove_Some _ _ _ Ht) as (_ & _ & _ & H1 & Hin).
    apply elem_of_getAvailableMoves in Hin as [Hrange Hnull].
    exists t.2. destruct t as [r m]. simpl in *. subst r. auto.
  - intros Hw'. destruct (aiMove s' pick) as [t|] eqn:E.
    + destruct (aiMove_Some _ _ _ E) as (_ & Hn & _). congruence.
    + simpl. apply app_nil_r.
Qed.

Lemma human_move_schedules_reply_witness :
  let c := exec initialConfig ToggleAI 0 in
  exists s', live (exec c (Click 4) 0) = s' /\ current s' = O
             /\ length (timers (exec c (Click 4) 0)) = 1%nat.
Proof.
  cbv zeta.
  set (c := exec initialConfig ToggleAI 0).
  assert (Hr : reachable c) by (constructor; [constructor|exact I]).
  destruct (makeMove (live c) 4 (live c)) as [s'|] eqn:Hm;
    [|vm_compute in Hm; discriminate].
  assert (Hw : winner s' = NoResult).
  { vm_compute in Hm. inversion Hm. reflexivity. }
  destruct (human_move_schedules_reply c 4 0 s' Hr eq_refl eq_refl Hm)
    as (Hl & Hopen & _).
  destruct (Hopen Hw) as (Hc & m & Ht & _).
  exists s'. split; [exact Hl|]. split; [exact Hc|].
  rewrite Ht. reflexivity.
Defined.
